(** * Batch-PIT normalization: a shallow embedding of [BatchPitNorm1d]

    Source: [src/bpitnorm/modules/BatchPitNormalization.py].

    The layer keeps a bounded buffer of past rows ([cdf_data], [size]),
    fills it while training ([fill]), and maps every feature of a batch
    through a Gaussian-kernel CDF of the buffered column ([make_cdf],
    [process_merged], [forward]).

    Modelling conventions.
    - Python integers are [Z]; positions inside a tensor are [nat].
    - A 2-D tensor is the list of its rows, a 1-D tensor a list of scalars.
      A batch handed to the layer is assumed to have [num_features]
      columns (the shape the layer is declared for); the number of rows
      is never assumed.
    - A Python exception is a [Raise e] outcome; the object state that an
      interrupted method leaves behind is returned next to it.
    - [assert] statements are executed (the interpreter does not run
      with [-O]).
    - [torch.randperm] is an oracle: every call receives the permutation
      it returns as an argument ([draws]), and theorems quantify over all
      oracles that return permutations. *)

From Stdlib Require Import String.
From Stdlib Require Import ZArith List Bool Lia Permutation.
From Stdlib Require Import QArith Reals Lra Zfloor Epsilon.
From Stdlib Require Import Floats.
From Equations Require Import Equations.
Import ListNotations.

Set Implicit Arguments.
Local Open Scope Z_scope.

(** ** Exceptions and outcomes *)

(** What the tensor library reports with a [RuntimeError]. *)
Inductive torch_error : Type :=
| NegativeDimension   (* a tensor is created with a negative dimension *)
| ShapeMismatch       (* a value cannot be broadcast to its target, or
                         stacked rows differ in width *)
| EmptyQuantile.      (* torch.quantile on an empty tensor *)

Inductive exn : Type :=
| AssertionError (msg : option string)   (* assert cond [, msg] *)
| RuntimeError (what : torch_error)
| IndexError                             (* an index tensor addresses a missing row *)
| ValueError                             (* torch.vmap over inputs of different sizes *)
| ZeroDivisionError.

Inductive outcome (A : Type) : Type :=
| Ok (a : A)
| Raise (e : exn).
Arguments Ok {A} a.
Arguments Raise {A} e.

Definition bind {A B : Type} (o : outcome A) (k : A -> outcome B) : outcome B :=
  match o with
  | Ok a => k a
  | Raise e => Raise e
  end.

Notation "x <- c ;; k" := (bind c (fun x => k))
  (at level 61, c at next level, right associativity).

Definition rejected {A : Type} (o : outcome A) : Prop := exists e, o = Raise e.

(** ** Tensor primitives *)

Definition len {A : Type} (l : list A) : Z := Z.of_nat (length l).

(** Python's normalisation of one bound of [l[a:b]] for a sequence of
    length [n]: a negative bound counts from the end, and every bound is
    clamped into [0..n]. *)
Definition norm_index (n i : Z) : Z :=
  if i <? 0 then Z.max 0 (i + n) else Z.min i n.

Definition slice_start {A : Type} (l : list A) (a : Z) : nat :=
  Z.to_nat (norm_index (len l) a).

Definition slice_count {A : Type} (l : list A) (a b : Z) : nat :=
  Z.to_nat (norm_index (len l) b - norm_index (len l) a).

(** [l[a:b]] *)
Definition slice {A : Type} (l : list A) (a b : Z) : list A :=
  firstn (slice_count l a b) (skipn (slice_start l a) l).

(** Broadcasting a source of [length src] rows to [n] target rows: the
    row counts agree, or the source has exactly one row, which is then
    repeated. *)
Definition broadcast_rows {A : Type} (src : list A) (n : nat) : outcome (list A) :=
  if Nat.eqb (length src) n then Ok src
  else match src with
       | [r] => Ok (repeat r n)
       | _ => Raise (RuntimeError ShapeMismatch)
       end.

(** [t[a:b] = src] *)
Definition setitem_slice {A : Type} (t : list A) (a b : Z) (src : list A)
  : outcome (list A) :=
  rows <- broadcast_rows src (slice_count t a b) ;;
  Ok (firstn (slice_start t a) t ++ rows
        ++ skipn (slice_start t a + slice_count t a b) t).

(** [t[i] = r] for one in-range position. *)
Fixpoint update {A : Type} (t : list A) (i : nat) (r : A) : list A :=
  match t, i with
  | [], _ => []
  | _ :: t', O => r :: t'
  | x :: t', S i' => x :: update t' i' r
  end.

(** Writing [rows] to the positions [idx], pairwise and in order. *)
Fixpoint scatter {A : Type} (t : list A) (idx : list nat) (rows : list A) : list A :=
  match idx, rows with
  | i :: idx', r :: rows' => scatter (update t i r) idx' rows'
  | _, _ => t
  end.

(** [t[idx] = src] with an index tensor [idx]. *)
Definition setitem_index {A : Type} (t : list A) (idx : list nat) (src : list A)
  : outcome (list A) :=
  if existsb (fun i => Nat.leb (length t) i) idx
  then Raise IndexError
  else rows <- broadcast_rows src (length idx) ;; Ok (scatter t idx rows).

(** [t[idx]] with an index tensor [idx]. *)
Fixpoint getitem_index {A : Type} (t : list A) (idx : list nat) : outcome (list A) :=
  match idx with
  | [] => Ok []
  | i :: idx' =>
      match nth_error t i with
      | None => Raise IndexError
      | Some r => rows <- getitem_index t idx' ;; Ok (r :: rows)
      end
  end.

(** [torch.fill(torch.empty(size=(rows, cols)), value=v)] *)
Definition torch_full {A : Type} (rows cols : Z) (v : A) : outcome (list (list A)) :=
  if (rows <? 0) || (cols <? 0) then Raise (RuntimeError NegativeDimension)
  else Ok (repeat (repeat v (Z.to_nat cols)) (Z.to_nat rows)).

(** [torch.rand(size=(1, cols))]; [rand j] is the number drawn for column [j]. *)
Definition torch_rand_row {A : Type} (cols : Z) (rand : nat -> A) : outcome (list A) :=
  if cols <? 0 then Raise (RuntimeError NegativeDimension)
  else Ok (map rand (seq 0 (Z.to_nat cols))).

(** ** Random permutations *)

(** What the two [torch.randperm] calls of one [fill] return, as a
    function of the requested length. *)
Record draws : Type := {
  randperm_batch : Z -> list nat;    (* line 78 *)
  randperm_values : Z -> list nat    (* line 79 *)
}.

(** [torch.randperm(n)] returns a permutation of [0 .. n-1]; the layer
    asks for non-negative lengths only. *)
Definition is_randperm (n : Z) (p : list nat) : Prop :=
  Permutation (seq 0 (Z.to_nat n)) p.

Definition draws_ok (rng : draws) : Prop :=
  (forall n, is_randperm n (randperm_batch rng n)) /\
  (forall n, is_randperm n (randperm_values rng n)).

(** The oracle that always returns the identity permutation. *)
Definition identity_draws : draws :=
  {| randperm_batch := fun n => seq 0 (Z.to_nat n);
     randperm_values := fun n => seq 0 (Z.to_nat n) |}.

(** The oracle whose second call returns the reversed range. *)
Definition reversing_draws : draws :=
  {| randperm_batch := fun n => seq 0 (Z.to_nat n);
     randperm_values := fun n => rev (seq 0 (Z.to_nat n)) |}.

(** ** The layer *)

Section Layer.

Variable scalar : Type.

Definition tensor1 : Type := list scalar.
Definition tensor2 : Type := list (list scalar).

(** The attributes of a [BatchPitNorm1d] object. [bw] is the single row
    of the (1 x num_features) bandwidth tensor, [cdf_data] the registered
    buffer, [training] the mode flag inherited from [nn.Module]. *)
Record BatchPitNorm1d : Type := {
  num_pit_samples : Z;
  take_num_samples_when_full : Z;
  num_features : Z;
  trainable_bandwidths : bool;
  bw : tensor1;
  size : Z;
  cdf_data : tensor2;
  normal_backtransform : bool;
  training : bool
}.

Definition values (self : BatchPitNorm1d) : tensor2 := cdf_data self.

Definition is_full (self : BatchPitNorm1d) : bool :=
  size self =? num_pit_samples self.

Definition capacity_left (self : BatchPitNorm1d) : Z :=
  num_pit_samples self - size self.

Definition set_buffer (self : BatchPitNorm1d) (v : tensor2) (s : Z) : BatchPitNorm1d :=
  {| num_pit_samples := num_pit_samples self;
     take_num_samples_when_full := take_num_samples_when_full self;
     num_features := num_features self;
     trainable_bandwidths := trainable_bandwidths self;
     bw := bw self;
     size := s;
     cdf_data := v;
     normal_backtransform := normal_backtransform self;
     training := training self |}.

Definition set_bw (self : BatchPitNorm1d) (b : tensor1) : BatchPitNorm1d :=
  {| num_pit_samples := num_pit_samples self;
     take_num_samples_when_full := take_num_samples_when_full self;
     num_features := num_features self;
     trainable_bandwidths := trainable_bandwidths self;
     bw := b;
     size := size self;
     cdf_data := cdf_data self;
     normal_backtransform := normal_backtransform self;
     training := training self |}.

(** [nn.Module.train(mode)]; [eval()] is [train false]. *)
Definition train (self : BatchPitNorm1d) (mode : bool) : BatchPitNorm1d :=
  {| num_pit_samples := num_pit_samples self;
     take_num_samples_when_full := take_num_samples_when_full self;
     num_features := num_features self;
     trainable_bandwidths := trainable_bandwidths self;
     bw := bw self;
     size := size self;
     cdf_data := cdf_data self;
     normal_backtransform := normal_backtransform self;
     training := mode |}.

Definition msg_need_sample : string :=
  "Require at least one sample for PIT normalization."%string.
Definition msg_need_training : string :=
  "Must be in training mode to allow filling."%string.
Definition msg_no_sample : string :=
  "Cannot compute forward pass without sample for the integral transform."%string.

(** [__init__] (lines 23-45). [nan] is [torch.nan]; [rand] is what
    [torch.rand] draws when the bandwidths are trainable. A fresh module
    is in training mode. *)
Definition __init__ (nan : scalar) (rand : nat -> scalar)
    (num_features num_pit_samples take_num_samples_when_full : Z)
    (normal_backtransform trainable_bandwidths : bool)
  : outcome BatchPitNorm1d :=
  if negb (num_pit_samples >? 0) then Raise (AssertionError (Some msg_need_sample))
  else if negb (take_num_samples_when_full >=? 0) then Raise (AssertionError None)
  else
    bw0 <- (if trainable_bandwidths
            then torch_rand_row num_features rand
            else row <- torch_full 1 num_features nan ;; Ok (concat row)) ;;
    values0 <- torch_full num_pit_samples num_features nan ;;
    Ok {| num_pit_samples := num_pit_samples;
          take_num_samples_when_full := take_num_samples_when_full;
          num_features := num_features;
          trainable_bandwidths := trainable_bandwidths;
          bw := bw0;
          size := 0;
          cdf_data := values0;
          normal_backtransform := normal_backtransform;
          training := true |}.

(** The last branch of [fill] (lines 75-80): the buffer has no room left. *)
Definition fill_replace (self : BatchPitNorm1d) (rng : draws) (data : tensor2)
  : BatchPitNorm1d * outcome unit :=
  let batch_size := len data in
  if take_num_samples_when_full self =? 0 then (self, Ok tt)
  else
    let k := Z.min batch_size (take_num_samples_when_full self) in
    let use_batch_indexes := randperm_batch rng k in
    let use_values_indexes :=
      slice (randperm_values rng (num_pit_samples self)) 0 k in
    match rows <- getitem_index data use_batch_indexes ;;
          setitem_index (values self) use_values_indexes rows with
    | Ok v => (set_buffer self v (size self), Ok tt)
    | Raise e => (self, Raise e)
    end.

(** [fill] (lines 59-82). The state in the result is the object after
    the call, also when the call raises. *)
Equations? fill (self : BatchPitNorm1d) (rng : draws) (data : tensor2)
  : BatchPitNorm1d * outcome unit by wf (length data) lt :=
fill self rng data with training self => {
  | false => (self, Raise (AssertionError (Some msg_need_training)));
  | true with Z_ge_dec (capacity_left self) (len data) => {
    | left _ =>
        match setitem_slice (values self) (size self) (size self + len data) data with
        | Ok v => (set_buffer self v (size self + len data), Ok tt)
        | Raise e => (self, Raise e)
        end;
    | right _ with Z_gt_dec (capacity_left self) 0 => {
      | left _ =>
          match setitem_slice (values self) (size self) (num_pit_samples self)
                  (slice data 0 (capacity_left self)) with
          | Ok v =>
              fill (set_buffer self v (size self + capacity_left self)) rng
                   (slice data (capacity_left self) (len data))
          | Raise e => (self, Raise e)
          end;
      | right _ => fill_replace self rng data } } }.
Proof.
  unfold slice, slice_count, slice_start, norm_index, len in *.
  rewrite length_firstn, length_skipn.
  destruct (capacity_left self <? 0) eqn:E1; [lia|].
  lia.
Qed.

End Layer.

Arguments fill_replace {scalar} self rng data.
Arguments set_buffer {scalar} self v s.
Arguments set_bw {scalar} self b.
Arguments train {scalar} self mode.
Arguments values {scalar} self.
Arguments is_full {scalar} self.
Arguments capacity_left {scalar} self.

(** ** The numeric pipeline *)

(** The scalar arithmetic the layer relies on: Python float arithmetic,
    [math.sqrt], and the functions of the tensor library. No law is
    assumed of them here. *)
Class TorchOps (scalar : Type) : Type := {
  lit : Q -> scalar;                        (* a float literal *)
  of_int : Z -> scalar;                     (* float(n) *)
  add : scalar -> scalar -> scalar;
  sub : scalar -> scalar -> scalar;
  mul : scalar -> scalar -> scalar;
  div : scalar -> scalar -> scalar;
  pow : scalar -> scalar -> scalar;         (* x ** y *)
  sqrt : scalar -> scalar;                  (* math.sqrt *)
  erf : scalar -> scalar;                   (* torch.special.erf *)
  erfinv : scalar -> scalar;                (* torch.special.erfinv *)
  sigmoid : scalar -> scalar;               (* torch.sigmoid *)
  minimum : scalar -> scalar -> scalar;     (* torch.min(a, b) *)
  clip : scalar -> scalar -> scalar -> scalar;  (* torch.clip(x, min, max) *)
  isnan : scalar -> bool;
  isinf : scalar -> bool;
  tsum : list scalar -> scalar;             (* torch.sum *)
  std : list scalar -> scalar;              (* Tensor.std() *)
  quantile : list scalar -> scalar -> scalar  (* torch.quantile on a non-empty tensor *)
}.

(** [torch.vmap(f)(xs)]: [f] applied independently to every entry. *)
Fixpoint vmap {A B : Type} (f : A -> outcome B) (xs : list A) : outcome (list B) :=
  match xs with
  | [] => Ok []
  | x :: xs' => y <- f x ;; ys <- vmap f xs' ;; Ok (y :: ys)
  end.

(** Column [j] of a 2-D tensor; a row too short for it is a shape error. *)
Definition column {A : Type} (t : list (list A)) (j : nat) : outcome (list A) :=
  vmap (fun row => match nth_error row j with
                   | Some v => Ok v
                   | None => Raise (RuntimeError ShapeMismatch)
                   end) t.

(** The first [n] columns of [t], each as a 1-D tensor. *)
Definition columns {A : Type} (t : list (list A)) (n : nat) : outcome (list (list A)) :=
  vmap (column t) (seq 0 n).

Section Numeric.

Context {scalar : Type} {ops : TorchOps scalar}.

(** [standard_normal_cdf] (lines 85-86), on a 1-D tensor. *)
Definition standard_normal_cdf (x : list scalar) : list scalar :=
  map (fun v => mul (lit 0.5) (add (lit 1.0) (erf (div v (sqrt (lit 2.0)))))) x.

(** [standard_normal_ppf] (lines 89-97), on a 2-D tensor. *)
Definition standard_normal_ppf (x : list (list scalar)) : outcome (list (list scalar)) :=
  let _min := lit 9e-8 in
  let _max := sub (lit 1.0) _min in
  let x := map (map (fun v => clip v _min _max)) x in
  let res :=
    map (map (fun v => mul (sqrt (lit 2.0))
                           (erfinv (sub (mul (lit 2.0) v) (lit 1.0))))) x in
  if negb (negb (existsb (existsb isnan) res) && negb (existsb (existsb isinf) res))
  then Raise (AssertionError None)
  else Ok res.

(** [torch.quantile(input=data, q=q, dim=0)] on a 1-D tensor. *)
Definition torch_quantile (data : list scalar) (q : scalar) : outcome scalar :=
  match data with
  | [] => Raise (RuntimeError EmptyQuantile)
  | _ => Ok (quantile data q)
  end.

(** The bandwidth that [make_cdf] ends up with (lines 101-108): the
    value of the local [bw] when the closure of line 109 is built. *)
Definition make_cdf_bw (self : BatchPitNorm1d scalar) (data : list scalar) (bw : scalar)
  : outcome scalar :=
  let num_samples := len data in
  if negb (trainable_bandwidths self) then
    q25 <- torch_quantile data (lit 0.25) ;;
    q75 <- torch_quantile data (lit 0.75) ;;
    let IQR := sub q75 q25 in
    Ok (mul (mul (lit 0.9) (minimum (std data) (div IQR (lit 1.34))))
            (pow (of_int num_samples) (lit (-0.2))))
  else Ok (sigmoid bw).

(** [make_cdf] (lines 100-109). The closure divides the float [1.0] by
    the Python integer [num_samples], which raises when it is zero. *)
Definition make_cdf (self : BatchPitNorm1d scalar) (data : list scalar) (bw : scalar)
  : outcome (scalar -> outcome scalar) :=
  let num_samples := len data in
  bw <- make_cdf_bw self data bw ;;
  Ok (fun use_x =>
        if num_samples =? 0 then Raise ZeroDivisionError
        else Ok (mul (div (lit 1.0) (of_int num_samples))
                     (tsum (standard_normal_cdf
                              (map (fun v => div v bw)
                                   (map (fun d => sub use_x d) data)))))).

(** [process_merged] (lines 112-120), for one feature: [all_data] is a
    column of the stacked tensor, [bandwidths] that feature's entry of
    [self.bw]. *)
Definition process_merged (self : BatchPitNorm1d scalar)
    (all_data : list scalar) (bandwidths : scalar) : outcome (list scalar) :=
  let size := size self in
  let data_cdf := slice all_data 0 size in
  let data_sample := slice all_data size (size + len all_data) in
  cdf <- make_cdf self data_cdf bandwidths ;;
  vmap cdf data_sample.

(** [torch.vmap(self.process_merged, in_dims=1, out_dims=1)(all_data, self.bw)]:
    both inputs are split along their second dimension, which must have
    the same size; the per-feature results become the columns of the
    output, which has one row per row of the batch. *)
Definition vmap_features (self : BatchPitNorm1d scalar)
    (all_data : list (list scalar)) (bw : list scalar) (batch_size : nat)
  : outcome (list (list scalar)) :=
  if negb (len bw =? num_features self) then Raise ValueError
  else
    cols <- columns all_data (length bw) ;;
    res <- vmap (fun cb => process_merged self (fst cb) (snd cb)) (combine cols bw) ;;
    columns res batch_size.

(** The part of [forward] after the buffer has been dealt with
    (lines 130-139). *)
Definition forward_transform (self : BatchPitNorm1d scalar) (x : list (list scalar))
  : outcome (list (list scalar)) :=
  let batch_size := len x in
  let all_data := slice (values self) 0 (size self) ++ x in
  if negb (len all_data =? size self + batch_size) then Raise (AssertionError None)
  else
    result <- vmap_features self all_data (bw self) (length x) ;;
    if normal_backtransform self then standard_normal_ppf result
    else Ok (map (map (fun v => sub v (lit 0.5))) result).

(** [forward] (lines 122-139). *)
Definition forward (self : BatchPitNorm1d scalar) (rng : draws) (x : list (list scalar))
  : BatchPitNorm1d scalar * outcome (list (list scalar)) :=
  let filled :=
    if training self then fill self rng x
    else if negb (size self >? 0)
         then (self, Raise (AssertionError (Some msg_no_sample)))
         else (self, Ok tt) in
  match filled with
  | (self', Raise e) => (self', Raise e)
  | (self', Ok _) => (self', forward_transform self' x)
  end.

End Numeric.

(** ** Real-number arithmetic

    The scalar operations read over the reals: every float is the real
    number it stands for, and rounding, infinities and NaN are left out. *)

Module RealOps.

Local Open Scope R_scope.

Fixpoint insert_sorted (x : R) (l : list R) : list R :=
  match l with
  | [] => [x]
  | y :: l' => if Rle_dec x y then x :: l else y :: insert_sorted x l'
  end.

Definition sort (l : list R) : list R := fold_right insert_sorted [] l.

Definition sum (l : list R) : R := fold_right Rplus 0 l.

Definition mean (l : list R) : R := sum l / INR (length l).

(** [Tensor.std()]: the sample standard deviation with Bessel's correction. *)
Definition sample_std (l : list R) : R :=
  R_sqrt.sqrt (sum (map (fun x => (x - mean l) * (x - mean l)) l) / (INR (length l) - 1)).

(** [torch.quantile] with its default linear interpolation: the rank
    [q * (n - 1)] in the sorted data, interpolated between the entries
    below and above it. *)
Definition linear_quantile (l : list R) (q : R) : R :=
  let sorted := sort l in
  let rank := q * (INR (length l) - 1) in
  let below := nth (Z.to_nat (Zfloor rank)) sorted 0 in
  let above := nth (Z.to_nat (Zceil rank)) sorted 0 in
  below + (rank - IZR (Zfloor rank)) * (above - below).

Definition logistic (x : R) : R := 1 / (1 + exp (- x)).

(** The error function, [2/sqrt(pi)] times the integral of [exp(-t^2)]
    from [0] to [x], and an inverse of it. *)
Definition gauss (t : R) : R := exp (- (t * t)).

Definition gauss_integrable (a b : R) : Riemann_integrable gauss a b.
Proof.
  assert (C : forall x, continuity_pt gauss x).
  { intros x. apply derivable_continuous_pt. unfold gauss. reg. }
  destruct (Rle_dec a b) as [H|H].
  - apply continuity_implies_RiemannInt; auto.
  - apply RiemannInt_P1. apply continuity_implies_RiemannInt; [lra | auto].
Defined.

Definition error_function (x : R) : R :=
  2 / R_sqrt.sqrt PI * RiemannInt (gauss_integrable 0 x).

Definition inverse_error_function (y : R) : R :=
  epsilon (inhabits 0) (fun x => error_function x = y).

#[global] Instance real_ops : TorchOps R :=
  {| lit := Q2R;
     of_int := IZR;
     add := Rplus;
     sub := Rminus;
     mul := Rmult;
     div := Rdiv;
     pow := Rpower;
     sqrt := R_sqrt.sqrt;
     erf := error_function;
     erfinv := inverse_error_function;
     sigmoid := logistic;
     minimum := Rmin;
     clip := fun x lo hi => Rmin (Rmax x lo) hi;
     isnan := fun _ => false;
     isinf := fun _ => false;
     tsum := sum;
     std := sample_std;
     quantile := linear_quantile |}.

(** *** The bandwidth and the kernel CDF, as the specification words them *)

(** Learned mode: [sigmoid(raw)]. Heuristic mode:
    [0.9 * min(sigma, IQR / 1.34) * m^(-0.2)], with [IQR = Q75 - Q25]. *)
Definition spec_bandwidth (learned : bool) (sample : list R) (raw : R) : R :=
  if learned then logistic raw
  else
    let sigma := sample_std sample in
    let IQR := linear_quantile sample 0.75 - linear_quantile sample 0.25 in
    0.9 * Rmin sigma (IQR / 1.34) * Rpower (INR (length sample)) (-0.2).

(** The standard normal CDF, [Phi(z) = 0.5 * (1 + erf(z / sqrt 2))]. *)
Definition spec_Phi (z : R) : R :=
  0.5 * (1 + error_function (z / R_sqrt.sqrt 2)).

(** [sum_{i < m} f i] *)
Fixpoint spec_sum (m : nat) (f : nat -> R) : R :=
  match m with
  | O => 0
  | S k => spec_sum k f + f k
  end.

(** [F(x) = (1/m) * sum_i Phi((x - sample[i]) / bw)] *)
Definition spec_cdf (sample : list R) (bw x : R) : R :=
  (1 / INR (length sample))
  * spec_sum (length sample) (fun i => spec_Phi ((x - nth i sample 0) / bw)).

End RealOps.

(** ** Vocabulary of the properties *)

Section Vocabulary.

Context {scalar : Type}.

(** The invariant that construction establishes and [fill] keeps. *)
Definition wf (self : BatchPitNorm1d scalar) : Prop :=
  0 < num_pit_samples self /\
  0 <= take_num_samples_when_full self /\
  0 <= size self <= num_pit_samples self /\
  len (values self) = num_pit_samples self.

(** A sequence of [fill] calls, stopped by the first one that raises. *)
Fixpoint fill_all (self : BatchPitNorm1d scalar) (calls : list (draws * tensor2 scalar))
  : BatchPitNorm1d scalar * outcome unit :=
  match calls with
  | [] => (self, Ok tt)
  | (rng, data) :: rest =>
      match fill self rng data with
      | (self', Ok _) => fill_all self' rest
      | (self', Raise e) => (self', Raise e)
      end
  end.

Definition total_rows (calls : list (draws * tensor2 scalar)) : Z :=
  len (concat (map snd calls)).

(** The objects a program can hold: a constructed one, after any number
    of [fill] and [train]/[eval] calls. A [fill] that raises still
    leaves an object behind. ([forward] changes the object only through
    [fill].) *)
Inductive reachable : BatchPitNorm1d scalar -> Prop :=
| reach_init nan rand nf np take nb tb self :
    __init__ nan rand nf np take nb tb = Ok self -> reachable self
| reach_fill self rng data :
    reachable self -> reachable (fst (fill self rng data))
| reach_train self mode :
    reachable self -> reachable (train self mode).

(** [after] is [before] with the rows [rows] written to the pairwise
    distinct positions [slots], and nothing else changed. *)
Definition overwrites_exactly (before after : tensor2 scalar)
    (slots : list nat) (rows : tensor2 scalar) : Prop :=
  NoDup slots /\
  length slots = length rows /\
  length after = length before /\
  (forall p s, nth_error slots p = Some s ->
     (s < length before)%nat /\ nth_error after s = nth_error rows p) /\
  (forall j, ~ In j slots -> nth_error after j = nth_error before j).

(** A full-buffer [fill] that completes, overwrites exactly
    [min(n, take_num_samples_when_full)] rows with rows of the batch,
    and leaves the other rows and [size] alone. *)
Definition replacement_conserved (self : BatchPitNorm1d scalar) (rng : draws)
    (data : tensor2 scalar) : Prop :=
  exists self' slots rows,
    fill self rng data = (self', Ok tt) /\
    len slots = Z.min (len data) (take_num_samples_when_full self) /\
    overwrites_exactly (values self) (values self') slots rows /\
    (forall r, In r rows -> In r data) /\
    size self' = size self.

(** The batch rows that a full-buffer [fill] copies into the buffer:
    [data[use_batch_indexes]] of line 80. *)
Definition rows_taken (self : BatchPitNorm1d scalar) (rng : draws)
    (data : tensor2 scalar) : outcome (tensor2 scalar) :=
  getitem_index data
    (randperm_batch rng (Z.min (len data) (take_num_samples_when_full self))).

End Vocabulary.

(** An exception other than an assertion that carries a message. *)
Definition no_message (e : exn) : Prop :=
  match e with
  | AssertionError (Some _) => False
  | _ => True
  end.

(** An outcome that is not a failed assertion with a message. *)
Definition fails_without_message {A : Type} (o : outcome A) : Prop :=
  forall e, o = Raise e -> no_message e.

(** Entry [(i, j)] of a 2-D tensor, if there is one. *)
Definition entry {A : Type} (t : list (list A)) (i j : nat) : option A :=
  match nth_error t i with
  | Some row => nth_error row j
  | None => None
  end.

(** What lines 135-138 of [forward] (with lines 92-95 of
    [standard_normal_ppf]) make of one CDF value [c]. *)
Definition map_cdf_value {scalar : Type} {ops : TorchOps scalar}
    (self : BatchPitNorm1d scalar) (c : scalar) : scalar :=
  if normal_backtransform self
  then mul (sqrt (lit 2.0))
           (erfinv (sub (mul (lit 2.0) (clip c (lit 9e-8) (sub (lit 1.0) (lit 9e-8))))
                        (lit 1.0)))
  else sub c (lit 0.5).

(** ** Example objects *)

(** A freshly constructed layer: one feature, room for two rows, one
    row replaced per full-buffer call. *)
Definition fresh_layer : BatchPitNorm1d float :=
  {| num_pit_samples := 2;
     take_num_samples_when_full := 1;
     num_features := 1;
     trainable_bandwidths := false;
     bw := [nan];
     size := 0;
     cdf_data := [[nan]; [nan]];
     normal_backtransform := true;
     training := true |}.

(** [fresh_layer] after [fill] of the rows 1.5 and 2.5: a full buffer. *)
Definition full_layer : BatchPitNorm1d float :=
  {| num_pit_samples := 2;
     take_num_samples_when_full := 1;
     num_features := 1;
     trainable_bandwidths := false;
     bw := [nan];
     size := 2;
     cdf_data := [[1.5%float]; [2.5%float]];
     normal_backtransform := true;
     training := true |}.

(** A full buffer of one row in a layer asked to replace two rows per
    call. *)
Definition tight_layer : BatchPitNorm1d float :=
  {| num_pit_samples := 1;
     take_num_samples_when_full := 2;
     num_features := 1;
     trainable_bandwidths := false;
     bw := [nan];
     size := 1;
     cdf_data := [[1.5%float]];
     normal_backtransform := true;
     training := true |}.

(** A layer over the reals in evaluation mode, holding the row 1. *)
Definition eval_layer : BatchPitNorm1d R :=
  {| num_pit_samples := 1;
     take_num_samples_when_full := 0;
     num_features := 1;
     trainable_bandwidths := false;
     bw := [0%R];
     size := 1;
     cdf_data := [[1%R]];
     normal_backtransform := false;
     training := false |}.

(** The same layer before anything was stored; the unset row, which no
    operation reads, is written as 0. *)
Definition empty_eval_layer : BatchPitNorm1d R :=
  {| num_pit_samples := 1;
     take_num_samples_when_full := 0;
     num_features := 1;
     trainable_bandwidths := false;
     bw := [0%R];
     size := 0;
     cdf_data := [[0%R]];
     normal_backtransform := false;
     training := false |}.

(** A layer over the reals with trainable bandwidths, holding the rows
    1 and 2. *)
Definition trainable_layer : BatchPitNorm1d R :=
  {| num_pit_samples := 2;
     take_num_samples_when_full := 0;
     num_features := 1;
     trainable_bandwidths := true;
     bw := [0%R];
     size := 2;
     cdf_data := [[1%R]; [2%R]];
     normal_backtransform := false;
     training := false |}.

(** A layer in training mode with replacement switched off, one of its
    two rows stored. *)
Definition static_layer : BatchPitNorm1d float :=
  {| num_pit_samples := 2;
     take_num_samples_when_full := 0;
     num_features := 1;
     trainable_bandwidths := false;
     bw := [nan];
     size := 1;
     cdf_data := [[1.5%float]; [nan]];
     normal_backtransform := true;
     training := true |}.

(** A layer in training mode asked to replace three rows per call in a
    buffer of two, one of them stored. *)
Definition greedy_layer : BatchPitNorm1d float :=
  {| num_pit_samples := 2;
     take_num_samples_when_full := 3;
     num_features := 1;
     trainable_bandwidths := false;
     bw := [nan];
     size := 1;
     cdf_data := [[1.5%float]; [nan]];
     normal_backtransform := true;
     training := true |}.

(** A layer over the reals in training mode, one of its two rows stored;
    the unset row, which no operation reads, is written as 0. *)
Definition training_layer : BatchPitNorm1d R :=
  {| num_pit_samples := 2;
     take_num_samples_when_full := 0;
     num_features := 1;
     trainable_bandwidths := true;
     bw := [0%R];
     size := 1;
     cdf_data := [[1%R]; [0%R]];
     normal_backtransform := false;
     training := true |}.

(** A layer over the reals in evaluation mode with the normal
    back-transform, holding the rows 1 and 2. *)
Definition probit_layer : BatchPitNorm1d R :=
  {| num_pit_samples := 2;
     take_num_samples_when_full := 0;
     num_features := 1;
     trainable_bandwidths := true;
     bw := [0%R];
     size := 2;
     cdf_data := [[1%R]; [2%R]];
     normal_backtransform := true;
     training := false |}.

(** * Properties *)

Unset Implicit Arguments.

(** ** Lists and slices *)

Lemma len_nonneg {A : Type} (l : list A) : 0 <= len l.
Proof. unfold len. lia. Qed.

Lemma len_app {A : Type} (l1 l2 : list A) : len (l1 ++ l2) = len l1 + len l2.
Proof. unfold len. rewrite length_app. lia. Qed.

Lemma norm_index_in_range (n i : Z) : 0 <= n -> 0 <= i <= n -> norm_index n i = i.
Proof.
  intros Hn Hi. unfold norm_index.
  destruct (i <? 0) eqn:E; [apply Z.ltb_lt in E; lia | lia].
Qed.

Lemma slice_start_in_range {A : Type} (l : list A) (a : Z) :
  0 <= a <= len l -> slice_start l a = Z.to_nat a.
Proof.
  intros H. unfold slice_start. rewrite norm_index_in_range; auto using len_nonneg.
Qed.

Lemma slice_count_in_range {A : Type} (l : list A) (a b : Z) :
  0 <= a <= len l -> 0 <= b <= len l -> slice_count l a b = Z.to_nat (b - a).
Proof.
  intros Ha Hb. unfold slice_count.
  rewrite !norm_index_in_range; auto using len_nonneg.
Qed.

Lemma slice_prefix {A : Type} (l : list A) (b : Z) :
  0 <= b <= len l -> slice l 0 b = firstn (Z.to_nat b) l.
Proof.
  intros Hb. unfold slice.
  rewrite slice_start_in_range, slice_count_in_range by (pose proof (len_nonneg l); lia).
  simpl. f_equal. lia.
Qed.

Lemma slice_suffix {A : Type} (l : list A) (a : Z) :
  0 <= a <= len l -> slice l a (len l) = skipn (Z.to_nat a) l.
Proof.
  intros Ha. unfold slice.
  rewrite slice_start_in_range, slice_count_in_range by (pose proof (len_nonneg l); lia).
  apply firstn_all2. rewrite length_skipn. unfold len in *. lia.
Qed.

Lemma slice_all {A : Type} (l : list A) : slice l 0 (len l) = l.
Proof.
  rewrite slice_suffix by (pose proof (len_nonneg l); lia). reflexivity.
Qed.

Lemma slice_over {A : Type} (l : list A) (b : Z) :
  len l <= b -> slice l 0 b = l.
Proof.
  intros Hb. unfold slice, slice_count, slice_start, norm_index.
  pose proof (len_nonneg l) as Hl.
  destruct (b <? 0) eqn:E; [apply Z.ltb_lt in E; lia|].
  simpl. rewrite Z.min_r, Z.min_l by lia.
  apply firstn_all2. unfold len. lia.
Qed.

Lemma broadcast_rows_same {A : Type} (src : list A) (n : nat) :
  length src = n -> broadcast_rows src n = Ok src.
Proof.
  intros H. unfold broadcast_rows. rewrite (proj2 (Nat.eqb_eq _ _) H). reflexivity.
Qed.

Lemma broadcast_rows_mismatch {A : Type} (src : list A) (n : nat) :
  length src <> n -> (2 <= length src)%nat ->
  broadcast_rows src n = Raise (RuntimeError ShapeMismatch).
Proof.
  intros H1 H2. unfold broadcast_rows.
  rewrite (proj2 (Nat.eqb_neq _ _) H1).
  destruct src as [|a [|b src]]; simpl in *; try lia; reflexivity.
Qed.

(** Writing [n] rows at offset [a] of a tensor with room for them. *)
Lemma setitem_slice_fits {A : Type} (t : list A) (a : Z) (src : list A) :
  0 <= a -> a + len src <= len t ->
  setitem_slice t a (a + len src) src
  = Ok (firstn (Z.to_nat a) t ++ src ++ skipn (Z.to_nat a + length src) t).
Proof.
  intros Ha Hfit. unfold setitem_slice.
  pose proof (len_nonneg src) as Hs.
  rewrite slice_start_in_range, slice_count_in_range by lia.
  replace (Z.to_nat (a + len src - a)) with (length src) by (unfold len; lia).
  rewrite broadcast_rows_same by reflexivity. reflexivity.
Qed.

(** ** Indexed reads and writes *)

Lemma length_update {A : Type} (t : list A) (i : nat) (r : A) :
  length (update t i r) = length t.
Proof.
  revert i. induction t as [|x t IH]; intros [|i]; simpl; auto.
Qed.

Lemma nth_error_update_eq {A : Type} (t : list A) (i : nat) (r : A) :
  (i < length t)%nat -> nth_error (update t i r) i = Some r.
Proof.
  revert i. induction t as [|x t IH]; intros [|i] H; simpl in *; try lia; auto.
  apply IH. lia.
Qed.

Lemma nth_error_update_ne {A : Type} (t : list A) (i j : nat) (r : A) :
  i <> j -> nth_error (update t i r) j = nth_error t j.
Proof.
  revert i j. induction t as [|x t IH]; intros [|i] [|j] H; simpl;
    try reflexivity; try congruence.
  apply IH. congruence.
Qed.

Lemma length_scatter {A : Type} (idx : list nat) (rows t : list A) :
  length (scatter t idx rows) = length t.
Proof.
  revert rows t. induction idx as [|i idx IH]; intros [|r rows] t; simpl; auto.
  rewrite IH. apply length_update.
Qed.

(** A position that is not addressed keeps its row. *)
Lemma scatter_frame {A : Type} (idx : list nat) (rows t : list A) (j : nat) :
  ~ In j idx -> nth_error (scatter t idx rows) j = nth_error t j.
Proof.
  revert rows t. induction idx as [|i idx IH]; intros [|r rows] t Hj; simpl; auto.
  rewrite IH by (intros C; apply Hj; right; exact C).
  apply nth_error_update_ne. intros ->. apply Hj. left. reflexivity.
Qed.

(** A position addressed once receives the row paired with it. *)
Lemma scatter_hit {A : Type} (idx : list nat) (rows t : list A) (p s : nat) :
  NoDup idx -> length idx = length rows ->
  (forall i, In i idx -> (i < length t)%nat) ->
  nth_error idx p = Some s ->
  nth_error (scatter t idx rows) s = nth_error rows p.
Proof.
  revert rows t p.
  induction idx as [|i idx IH]; intros [|r rows] t p Hnd Hlen Hin Hp; simpl in *;
    try discriminate; try (destruct p; discriminate).
  inversion Hnd as [|? ? Hni Hnd']; subst.
  destruct p as [|p]; simpl in *.
  - injection Hp as ->. rewrite scatter_frame by exact Hni.
    apply nth_error_update_eq. apply Hin. left. reflexivity.
  - apply IH; auto.
    intros j Hj. rewrite length_update. apply Hin. right. exact Hj.
Qed.

Lemma getitem_index_in_range {A : Type} (t : list A) (idx : list nat) :
  (forall i, In i idx -> (i < length t)%nat) ->
  exists rows, getitem_index t idx = Ok rows /\
               length rows = length idx /\
               forall p, nth_error rows p
                         = match nth_error idx p with
                           | Some i => nth_error t i
                           | None => None
                           end.
Proof.
  induction idx as [|i idx IH]; intros Hin; simpl.
  - exists []. repeat split. intros [|p]; reflexivity.
  - destruct (nth_error t i) as [r|] eqn:Er.
    + destruct IH as (rows & -> & Hlen & Hnth).
      { intros j Hj. apply Hin. right. exact Hj. }
      exists (r :: rows). simpl. repeat split; [lia|].
      intros [|p]; simpl; auto.
    + apply nth_error_None in Er. specialize (Hin i (or_introl eq_refl)). lia.
Qed.

Lemma In_firstn {A : Type} (n : nat) (l : list A) (x : A) :
  In x (firstn n l) -> In x l.
Proof.
  intros H. rewrite <- (firstn_skipn n l). apply in_or_app. left. exact H.
Qed.

Lemma In_skipn {A : Type} (n : nat) (l : list A) (x : A) :
  In x (skipn n l) -> In x l.
Proof.
  intros H. rewrite <- (firstn_skipn n l). apply in_or_app. right. exact H.
Qed.

Lemma NoDup_firstn {A : Type} (n : nat) (l : list A) :
  NoDup l -> NoDup (firstn n l).
Proof.
  intros H. rewrite <- (firstn_skipn n l) in H.
  apply NoDup_app_remove_r in H. exact H.
Qed.

Lemma existsb_out_of_range (n : nat) (idx : list nat) :
  (forall i, In i idx -> (i < n)%nat) ->
  existsb (fun i => Nat.leb n i) idx = false.
Proof.
  intros H. induction idx as [|i idx IH]; simpl; auto.
  rewrite IH by (intros j Hj; apply H; right; exact Hj).
  rewrite orb_false_r. apply Nat.leb_gt. apply H. left. reflexivity.
Qed.

(** ** Permutations returned by the oracle *)

Lemma is_randperm_length (n : Z) (p : list nat) :
  is_randperm n p -> length p = Z.to_nat n.
Proof.
  intros H. apply Permutation_length in H. rewrite length_seq in H. auto.
Qed.

Lemma is_randperm_NoDup (n : Z) (p : list nat) : is_randperm n p -> NoDup p.
Proof.
  intros H. eapply Permutation_NoDup; [exact H | apply seq_NoDup].
Qed.

Lemma is_randperm_bound (n : Z) (p : list nat) (i : nat) :
  is_randperm n p -> In i p -> (i < Z.to_nat n)%nat.
Proof.
  intros H Hi. apply Permutation_sym in H.
  apply (Permutation_in _ H) in Hi. apply in_seq in Hi. lia.
Qed.

Lemma identity_draws_ok : draws_ok identity_draws.
Proof. split; intros n; apply Permutation_refl. Qed.

Lemma reversing_draws_ok : draws_ok reversing_draws.
Proof.
  split; intros n; [apply Permutation_refl | apply Permutation_rev].
Qed.

(** ** The branches of [fill] *)

Section FillBranches.

Context {scalar : Type}.
Implicit Types (self : BatchPitNorm1d scalar) (rng : draws) (data : tensor2 scalar).

(** [fill], read as the chain of tests of the source. *)
Lemma fill_body self rng data :
  fill self rng data =
  if negb (training self)
  then (self, Raise (AssertionError (Some msg_need_training)))
  else if capacity_left self >=? len data then
    match setitem_slice (values self) (size self) (size self + len data) data with
    | Ok v => (set_buffer self v (size self + len data), Ok tt)
    | Raise e => (self, Raise e)
    end
  else if capacity_left self >? 0 then
    match setitem_slice (values self) (size self) (num_pit_samples self)
            (slice data 0 (capacity_left self)) with
    | Ok v =>
        fill (set_buffer self v (size self + capacity_left self)) rng
             (slice data (capacity_left self) (len data))
    | Raise e => (self, Raise e)
    end
  else fill_replace self rng data.
Proof.
  simp fill. destruct (training self); simpl; [|reflexivity].
  rewrite Z.geb_leb, Z.gtb_ltb.
  destruct (Z_ge_dec (capacity_left self) (len data)) as [H|H]; simpl.
  - destruct (Z.leb_spec (len data) (capacity_left self)); [reflexivity | lia].
  - destruct (Z.leb_spec (len data) (capacity_left self)); [lia|].
    destruct (Z_gt_dec (capacity_left self) 0) as [H'|H']; simpl;
      destruct (Z.ltb_spec 0 (capacity_left self)); try lia; reflexivity.
Qed.

Lemma fill_not_training self rng data :
  training self = false ->
  fill self rng data = (self, Raise (AssertionError (Some msg_need_training))).
Proof. intros H. rewrite fill_body, H. reflexivity. Qed.

(** First branch: the whole batch fits. *)
Lemma fill_fits self rng data :
  training self = true -> wf self -> len data <= capacity_left self ->
  fill self rng data
  = (set_buffer self
       (firstn (Z.to_nat (size self)) (values self) ++ data
          ++ skipn (Z.to_nat (size self) + length data) (values self))
       (size self + len data), Ok tt).
Proof.
  intros Ht (Hcap & Htake & Hsize & Hlen) Hfit. unfold capacity_left in Hfit.
  rewrite fill_body, Ht. simpl. unfold capacity_left.
  rewrite Z.geb_leb. destruct (Z.leb_spec (len data) (num_pit_samples self - size self)); [|lia].
  rewrite setitem_slice_fits by lia. reflexivity.
Qed.

(** Last branch: the buffer is full and the batch is not empty. *)
Lemma fill_full self rng data :
  training self = true -> size self = num_pit_samples self -> 0 < len data ->
  fill self rng data = fill_replace self rng data.
Proof.
  intros Ht Hfull Hn. rewrite fill_body, Ht. simpl. unfold capacity_left.
  rewrite Hfull, Z.sub_diag, Z.geb_leb, Z.gtb_ltb.
  destruct (Z.leb_spec (len data) 0); [lia|]. reflexivity.
Qed.

(** Middle branch: the batch is split; its head completes the buffer and
    its tail meets the full buffer. *)
Lemma fill_overflow self rng data :
  training self = true -> wf self ->
  0 < capacity_left self < len data ->
  fill self rng data
  = fill_replace
      (set_buffer self
         (firstn (Z.to_nat (size self)) (values self)
            ++ firstn (Z.to_nat (capacity_left self)) data)
         (num_pit_samples self))
      rng (skipn (Z.to_nat (capacity_left self)) data).
Proof.
  intros Ht (Hcap & Htake & Hsize & Hlen) Hover.
  rewrite fill_body, Ht. simpl.
  rewrite Z.geb_leb, Z.gtb_ltb.
  destruct (Z.leb_spec (len data) (capacity_left self)); [lia|].
  destruct (Z.ltb_spec 0 (capacity_left self)); [|lia].
  unfold capacity_left in *.
  rewrite slice_prefix by lia.
  set (head := firstn (Z.to_nat (num_pit_samples self - size self)) data).
  assert (Hhead : len head = num_pit_samples self - size self).
  { unfold head, len in *. rewrite length_firstn. lia. }
  replace (num_pit_samples self) with (size self + len head) at 1 by lia.
  rewrite setitem_slice_fits by lia.
  rewrite (skipn_all2 (values self)) by (unfold len in *; lia).
  rewrite app_nil_r.
  replace (size self + (num_pit_samples self - size self))
    with (num_pit_samples self) by lia.
  rewrite slice_suffix by lia.
  apply fill_full; simpl; auto.
  unfold len in *. rewrite length_skipn. lia.
Qed.

End FillBranches.

(** ** Replacement in a full buffer *)

Section Replacement.

Context {scalar : Type}.
Implicit Types (self : BatchPitNorm1d scalar) (rng : draws) (data : tensor2 scalar).

Lemma fill_replace_disabled self rng data :
  take_num_samples_when_full self = 0 -> fill_replace self rng data = (self, Ok tt).
Proof. intros H. unfold fill_replace. rewrite H. reflexivity. Qed.

(** Whatever happens, replacement leaves the object as it was or swaps
    the buffer for one of the same length; [size] is not touched. *)
Lemma fill_replace_state self rng data :
  fst (fill_replace self rng data) = self \/
  exists v, fst (fill_replace self rng data) = set_buffer self v (size self) /\
            length v = length (values self).
Proof.
  unfold fill_replace.
  destruct (take_num_samples_when_full self =? 0); [left; reflexivity|].
  destruct (getitem_index data _) as [rows|e]; simpl; [|left; reflexivity].
  unfold setitem_index.
  destruct (existsb _ _); simpl; [left; reflexivity|].
  destruct (broadcast_rows rows _) as [rows'|e]; simpl; [|left; reflexivity].
  right. eexists. split; [reflexivity|]. apply length_scatter.
Qed.

(** The slots addressed by line 79. *)
Lemma use_values_indexes_spec self rng (k : Z) :
  wf self -> draws_ok rng -> 0 <= k ->
  let slots := slice (randperm_values rng (num_pit_samples self)) 0 k in
  NoDup slots /\
  len slots = Z.min k (num_pit_samples self) /\
  (forall i, In i slots -> (i < length (values self))%nat).
Proof.
  intros (Hcap & Htake & Hsize & Hlen) [_ Hperm] Hk slots.
  specialize (Hperm (num_pit_samples self)).
  pose proof (is_randperm_length _ _ Hperm) as Hl.
  pose proof (is_randperm_NoDup _ _ Hperm) as Hnd.
  assert (Hsub : forall i, In i slots ->
                   In i (randperm_values rng (num_pit_samples self))).
  { intros i Hi. unfold slots, slice in Hi.
    apply In_firstn in Hi. apply In_skipn in Hi. exact Hi. }
  repeat split.
  - unfold slots, slice. rewrite slice_start_in_range by (unfold len; lia).
    simpl. apply NoDup_firstn. exact Hnd.
  - unfold slots, slice, slice_count, slice_start, norm_index, len.
    rewrite Hl. rewrite length_firstn, length_skipn, Hl.
    destruct (k <? 0) eqn:E; [apply Z.ltb_lt in E; lia|]. simpl. lia.
  - intros i Hi. apply Hsub in Hi.
    apply (is_randperm_bound _ _ _ Hperm) in Hi. unfold len in Hlen. lia.
Qed.

(** The batch rows read by line 80 exist. *)
Lemma use_batch_indexes_spec self rng data :
  draws_ok rng -> 0 <= take_num_samples_when_full self ->
  exists rows,
    rows_taken self rng data = Ok rows /\
    len rows = Z.min (len data) (take_num_samples_when_full self) /\
    forall r, In r rows -> In r data.
Proof.
  intros [Hperm _] Htake. unfold rows_taken.
  set (k := Z.min (len data) (take_num_samples_when_full self)).
  specialize (Hperm k).
  destruct (getitem_index_in_range data (randperm_batch rng k))
    as (rows & Hget & Hlen & Hnth).
  { intros i Hi. apply (is_randperm_bound _ _ _ Hperm) in Hi. unfold k, len in *. lia. }
  exists rows. split; [exact Hget|]. split.
  - unfold len. rewrite Hlen, (is_randperm_length _ _ Hperm).
    pose proof (len_nonneg data). unfold k in *. lia.
  - intros r Hr. apply In_nth_error in Hr. destruct Hr as [p Hp].
    rewrite Hnth in Hp. destruct (nth_error (randperm_batch rng k) p); [|discriminate].
    eapply nth_error_In. exact Hp.
Qed.

(** Replacement with room for the rows it takes. *)
Lemma fill_replace_ok self rng data :
  wf self -> draws_ok rng ->
  0 < take_num_samples_when_full self ->
  Z.min (len data) (take_num_samples_when_full self) <= num_pit_samples self ->
  exists rows,
    rows_taken self rng data = Ok rows /\
    fill_replace self rng data
    = (set_buffer self
         (scatter (values self)
            (slice (randperm_values rng (num_pit_samples self)) 0
               (Z.min (len data) (take_num_samples_when_full self)))
            rows)
         (size self), Ok tt).
Proof.
  intros Hwf Hrng Htake Hroom.
  destruct (use_batch_indexes_spec self rng data Hrng) as (rows & Hget & Hlen & _);
    [lia|].
  pose proof (len_nonneg data) as Hn.
  destruct (use_values_indexes_spec self rng
              (Z.min (len data) (take_num_samples_when_full self)) Hwf Hrng)
    as (Hnd & Hslots & Hin); [lia|].
  exists rows. split; [exact Hget|].
  unfold fill_replace, rows_taken in *.
  destruct (Z.eqb_spec (take_num_samples_when_full self) 0); [lia|].
  rewrite Hget. simpl. unfold setitem_index.
  rewrite existsb_out_of_range by exact Hin.
  rewrite broadcast_rows_same by (unfold len in *; lia).
  reflexivity.
Qed.

(** Replacement that takes more rows than the buffer has slots. *)
Lemma fill_replace_too_many self rng data :
  wf self -> draws_ok rng ->
  num_pit_samples self < Z.min (len data) (take_num_samples_when_full self) ->
  fill_replace self rng data = (self, Raise (RuntimeError ShapeMismatch)).
Proof.
  intros Hwf Hrng Hmany.
  pose proof Hwf as (Hcap & Htake & Hsize & Hlenv).
  destruct (use_batch_indexes_spec self rng data Hrng) as (rows & Hget & Hlen & _);
    [lia|].
  destruct (use_values_indexes_spec self rng
              (Z.min (len data) (take_num_samples_when_full self)) Hwf Hrng)
    as (Hnd & Hslots & Hin); [lia|].
  unfold fill_replace, rows_taken in *.
  destruct (Z.eqb_spec (take_num_samples_when_full self) 0); [lia|].
  rewrite Hget. simpl. unfold setitem_index.
  rewrite existsb_out_of_range by exact Hin.
  rewrite broadcast_rows_mismatch by (unfold len in *; lia).
  reflexivity.
Qed.

End Replacement.

(** ** Invariants of the buffer *)

Section Invariants.

Context {scalar : Type}.
Implicit Types (self : BatchPitNorm1d scalar) (rng : draws) (data : tensor2 scalar).

Lemma torch_full_shape {A : Type} (rows cols : Z) (v : A) (t : list (list A)) :
  torch_full rows cols v = Ok t -> 0 <= rows /\ 0 <= cols /\ len t = rows.
Proof.
  unfold torch_full.
  destruct (Z.ltb_spec rows 0); simpl; [discriminate|].
  destruct (Z.ltb_spec cols 0); simpl; [discriminate|].
  intros [= <-]. unfold len. rewrite repeat_length. lia.
Qed.

(** What a successful construction returns. *)
Lemma init_state (nan : scalar) rand nf np take nb tb self :
  __init__ nan rand nf np take nb tb = Ok self ->
  wf self /\ size self = 0 /\ training self = true /\
  num_pit_samples self = np /\ take_num_samples_when_full self = take /\
  0 <= nf.
Proof.
  unfold __init__.
  destruct (Z.gtb_spec np 0); simpl; [|discriminate].
  rewrite Z.geb_leb. destruct (Z.leb_spec 0 take); simpl; [|discriminate].
  destruct (if tb then _ else _) as [bw0|e]; simpl; [|discriminate].
  destruct (torch_full np nf nan) as [v|e] eqn:Ev; simpl; [|discriminate].
  intros [= <-]. apply torch_full_shape in Ev.
  unfold wf; simpl. intuition lia.
Qed.

(** One call of [fill], successful or not, keeps the invariant and the
    configuration, never lowers [size], and freezes a full buffer's
    [size] (and, without replacement, its rows). *)
Lemma fill_invariant self rng data :
  wf self ->
  let self' := fst (fill self rng data) in
  wf self' /\
  num_pit_samples self' = num_pit_samples self /\
  take_num_samples_when_full self' = take_num_samples_when_full self /\
  training self' = training self /\
  size self <= size self' /\
  (size self = num_pit_samples self ->
     size self' = size self /\
     (take_num_samples_when_full self = 0 -> values self' = values self)).
Proof.
  intros Hwf. pose proof Hwf as (Hcap & Htake & Hsize & Hlen).
  pose proof (len_nonneg data) as Hn.
  destruct (training self) eqn:Ht.
  2:{ rewrite fill_not_training by exact Ht. simpl. rewrite Ht. intuition lia. }
  destruct (Z_le_gt_dec (len data) (capacity_left self)) as [Hfit|Hover].
  - (* the batch fits *)
    rewrite fill_fits by assumption. unfold capacity_left in Hfit.
    unfold wf, values in *. simpl.
    assert (Hl : len (firstn (Z.to_nat (size self)) (cdf_data self) ++ data
                        ++ skipn (Z.to_nat (size self) + length data) (cdf_data self))
                 = num_pit_samples self).
    { rewrite !len_app. unfold len in *. rewrite length_firstn, length_skipn. lia. }
    repeat split; try assumption; try lia.
    intros _.
    assert (length data = 0%nat) as Hz by (unfold len in *; lia).
    destruct data; [|discriminate]. simpl.
    rewrite firstn_all2, skipn_all2 by (unfold len in *; lia).
    apply app_nil_r.
  - destruct (Z_lt_le_dec 0 (capacity_left self)) as [Hroom|Hfull].
    + (* the batch is split *)
      rewrite fill_overflow by (auto; lia).
      set (half := set_buffer self _ _).
      assert (Hhalf : wf half).
      { unfold wf, half, values, capacity_left in *. simpl. repeat split; try lia.
        rewrite len_app. unfold len in *. rewrite !length_firstn. lia. }
      unfold capacity_left in *.
      destruct (fill_replace_state half rng
                  (skipn (Z.to_nat (num_pit_samples self - size self)) data))
        as [-> | (v & -> & Hv)].
      * unfold half. simpl. repeat split; try apply Hhalf; try assumption; lia.
      * unfold wf, half, values in *. simpl in *.
        repeat split; try assumption; try lia. unfold len in *. lia.
    + (* the buffer is full *)
      unfold capacity_left in *.
      assert (Hf : size self = num_pit_samples self) by lia.
      rewrite fill_full by (auto; lia).
      destruct (fill_replace_state self rng data) as [E | (v & E & Hv)].
      * rewrite E. repeat split; try assumption; try lia.
      * rewrite E. unfold wf, values in *. simpl.
        repeat split; try assumption; try lia; try (unfold len in *; lia).
        intros Hz. rewrite fill_replace_disabled in E by exact Hz.
        simpl in E. rewrite E. reflexivity.
Qed.

Lemma reachable_wf self : reachable self -> wf self.
Proof.
  induction 1 as [nan rand nf np take nb tb self Hinit | self rng data _ IH
                 | self mode _ IH].
  - apply init_state in Hinit. apply Hinit.
  - apply fill_invariant. exact IH.
  - exact IH.
Qed.

End Invariants.

(** ** Construction *)

Lemma fresh_layer_init :
  __init__ nan (fun _ => 0%float) 1 2 1 true false = Ok fresh_layer.
Proof. reflexivity. Qed.

Lemma fresh_layer_reachable : reachable fresh_layer.
Proof. eapply reach_init. exact fresh_layer_init. Qed.

Lemma full_layer_reachable : reachable full_layer.
Proof.
  change full_layer
    with (fst (fill fresh_layer identity_draws [[1.5%float]; [2.5%float]])).
  apply reach_fill. exact fresh_layer_reachable.
Qed.

Lemma tight_layer_reachable : reachable tight_layer.
Proof.
  assert (H : __init__ nan (fun _ => 0%float) 1 1 2 true false
              = Ok (set_buffer tight_layer [[nan]] 0)) by reflexivity.
  change tight_layer
    with (fst (fill (set_buffer tight_layer [[nan]] 0) identity_draws [[1.5%float]])).
  apply reach_fill. eapply reach_init. exact H.
Qed.

Section InitClaims.

Context {scalar : Type}.

(** C8 (as the code has it): a non-positive [num_pit_samples] is
    rejected by the first assertion, whatever the other arguments; with a
    positive capacity and a non-negative replacement size, a negative
    [num_features] is rejected by the tensor allocation, and a
    non-negative one, zero included, is accepted. *)
Theorem init_checks_capacity_not_features
    (nan : scalar) (rand : nat -> scalar) (nf np take : Z) (nb tb : bool) :
  (np <= 0 ->
     __init__ nan rand nf np take nb tb
     = Raise (AssertionError (Some msg_need_sample))) /\
  (0 < np -> 0 <= take -> nf < 0 ->
     __init__ nan rand nf np take nb tb = Raise (RuntimeError NegativeDimension)) /\
  (0 < np -> 0 <= take -> 0 <= nf ->
     exists self, __init__ nan rand nf np take nb tb = Ok self /\
                  num_features self = nf /\ num_pit_samples self = np /\
                  size self = 0).
Proof.
  unfold __init__. rewrite Z.geb_leb. repeat split.
  - intros H. destruct (Z.gtb_spec np 0); [lia | reflexivity].
  - intros Hnp Htake Hnf.
    destruct (Z.gtb_spec np 0); [|lia]. destruct (Z.leb_spec 0 take); [|lia]. simpl.
    unfold torch_rand_row, torch_full.
    destruct (Z.ltb_spec nf 0); [|lia].
    destruct tb; reflexivity.
  - intros Hnp Htake Hnf.
    destruct (Z.gtb_spec np 0); [|lia]. destruct (Z.leb_spec 0 take); [|lia]. simpl.
    unfold torch_rand_row, torch_full.
    destruct (Z.ltb_spec nf 0); [lia|].
    destruct (Z.ltb_spec np 0); [lia|]. simpl.
    destruct tb; simpl; eexists; (split; [reflexivity|]); simpl; auto.
Qed.

End InitClaims.

(** C8, witness: capacity 0 is rejected, one feature and capacity 2 are
    accepted. *)
Lemma init_checks_capacity_not_features_witness :
  (0 <= 0 /\
   __init__ nan (fun _ => 0%float) 1 0 1 true false
   = Raise (AssertionError (Some msg_need_sample))) /\
  (0 < 2 /\ 0 <= 1 /\ 0 <= 1 /\
   exists self, __init__ nan (fun _ => 0%float) 1 2 1 true false = Ok self /\
                num_features self = 1 /\ num_pit_samples self = 2 /\ size self = 0).
Proof.
  pose proof (init_checks_capacity_not_features nan (fun _ => 0%float) 1 0 1 true false)
    as (H0 & _ & _).
  pose proof (init_checks_capacity_not_features nan (fun _ => 0%float) 1 2 1 true false)
    as (_ & _ & H2).
  split.
  - split; [lia | apply H0; lia].
  - split; [lia|]. split; [lia|]. split; [lia|]. apply H2; lia.
Defined.

(** C8, counterexample: with [num_features = 0] (and capacity 1) the
    construction is not rejected. *)
Lemma init_accepts_zero_features :
  0 <= 0 /\ ~ rejected (__init__ nan (fun _ => 0%float) 0 1 0 true false).
Proof.
  split; [lia|]. intros [e H]. vm_compute in H. discriminate H.
Qed.

(** ** The buffer under [fill] *)

Section BufferClaims.

Context {scalar : Type}.
Implicit Types (self : BatchPitNorm1d scalar) (rng : draws) (data : tensor2 scalar).

(** C6: in every reachable object [0 <= size <= capacity]; a [fill]
    call, whether it returns or raises, never lowers [size]; on a full
    buffer it leaves [size] as it is, and with
    [take_num_samples_when_full = 0] it leaves the stored rows as they
    are. *)
Theorem size_bounded_monotone_frozen self :
  reachable self ->
  0 <= size self <= num_pit_samples self /\
  forall rng data,
    size self <= size (fst (fill self rng data)) /\
    (size self = num_pit_samples self ->
       size (fst (fill self rng data)) = size self) /\
    (size self = num_pit_samples self ->
     take_num_samples_when_full self = 0 ->
       values (fst (fill self rng data)) = values self).
Proof.
  intros Hr. apply reachable_wf in Hr.
  split; [apply Hr|].
  intros rng data.
  destruct (fill_invariant self rng data Hr) as (_ & _ & _ & _ & Hmono & Hfull).
  split; [exact Hmono|]. split.
  - intros Hf. apply Hfull. exact Hf.
  - intros Hf Hz. apply Hfull; assumption.
Qed.

(** Filling batches that all fit appends them to the stored prefix. *)
Lemma fill_all_fits (calls : list (draws * tensor2 scalar)) : forall self,
  wf self -> training self = true ->
  size self + total_rows calls <= num_pit_samples self ->
  exists self',
    fill_all self calls = (self', Ok tt) /\
    size self' = size self + total_rows calls /\
    firstn (Z.to_nat (size self')) (values self')
    = firstn (Z.to_nat (size self)) (values self) ++ concat (map snd calls).
Proof.
  unfold total_rows.
  induction calls as [|[rng data] rest IH]; intros self Hwf Ht Hroom; simpl in *.
  - exists self. rewrite app_nil_r. repeat split. unfold len. simpl. lia.
  - rewrite len_app in Hroom.
    pose proof (len_nonneg data) as Hn.
    pose proof (len_nonneg (concat (map snd rest))) as Hrest.
    pose proof Hwf as (Hcap & Htake & Hsize & Hlen).
    pose proof (fill_invariant self rng data Hwf) as (Hwf' & Hnp & _ & Htr & _).
    rewrite fill_fits in * by (auto; unfold capacity_left; lia).
    simpl in Hwf', Hnp, Htr.
    set (self1 := set_buffer self _ _) in *.
    destruct (IH self1) as (self' & Hall & Hsz & Hrows).
    + exact Hwf'.
    + unfold self1. simpl. exact Ht.
    + unfold self1. simpl. lia.
    + exists self'. split; [exact Hall|]. split.
      * rewrite Hsz. unfold self1. simpl. rewrite len_app. lia.
      * rewrite Hrows. unfold self1, values. simpl.
        set (A := firstn (Z.to_nat (size self)) (cdf_data self)).
        set (B := skipn (Z.to_nat (size self) + length data) (cdf_data self)).
        assert (E : firstn (Z.to_nat (size self + len data)) (A ++ data ++ B)
                    = A ++ data).
        { replace (Z.to_nat (size self + len data)) with (length (A ++ data)).
          2:{ rewrite length_app. unfold A. rewrite length_firstn.
              unfold values, len in *. lia. }
          rewrite app_assoc, firstn_app, firstn_all, Nat.sub_diag. simpl.
          apply app_nil_r. }
        rewrite E, <- app_assoc. reflexivity.
Qed.

(** C2: starting from a constructed layer, a sequence of [fill] calls
    whose batches have at most [capacity] rows in total returns normally,
    [size] is then the total number of rows, and the first [size] rows of
    the buffer are the rows of the batches in arrival order. *)
Theorem fill_keeps_arrival_order
    (nan : scalar) rand nf np take nb tb self
    (calls : list (draws * tensor2 scalar)) :
  __init__ nan rand nf np take nb tb = Ok self ->
  total_rows calls <= np ->
  exists self',
    fill_all self calls = (self', Ok tt) /\
    size self' = total_rows calls /\
    slice (values self') 0 (size self') = concat (map snd calls).
Proof.
  intros Hinit Hroom.
  destruct (init_state nan rand nf np take nb tb self Hinit)
    as (Hwf & Hs & Ht & Hnp & _ & _).
  destruct (fill_all_fits calls self Hwf Ht) as (self' & Hall & Hsz & Hrows).
  { rewrite Hs, Hnp. lia. }
  rewrite Hs in *. simpl in *.
  exists self'. split; [exact Hall|]. split; [lia|].
  assert (Hwf' : wf self').
  { clear - Hwf Hall. revert self self' Hwf Hall.
    induction calls as [|[rng data] rest IH]; intros self self' Hwf Hall; simpl in *.
    - injection Hall as <-. exact Hwf.
    - pose proof (fill_invariant self rng data Hwf) as (Hwf1 & _).
      destruct (fill self rng data) as [self1 [[]|e]]; simpl in *.
      + eapply IH; eauto.
      + discriminate. }
  destruct Hwf' as (_ & _ & Hsize' & Hlen').
  rewrite slice_prefix by lia. exact Hrows.
Qed.

End BufferClaims.

(** C6, witness: the full two-row layer. *)
Lemma size_bounded_monotone_frozen_witness :
  reachable full_layer /\
  (0 <= size full_layer <= num_pit_samples full_layer /\
   forall rng data,
     size full_layer <= size (fst (fill full_layer rng data)) /\
     (size full_layer = num_pit_samples full_layer ->
        size (fst (fill full_layer rng data)) = size full_layer) /\
     (size full_layer = num_pit_samples full_layer ->
      take_num_samples_when_full full_layer = 0 ->
        values (fst (fill full_layer rng data)) = values full_layer)).
Proof.
  split; [exact full_layer_reachable|].
  apply (size_bounded_monotone_frozen full_layer). exact full_layer_reachable.
Defined.

(** C2, witness: two one-row batches into the fresh two-row layer. *)
Lemma fill_keeps_arrival_order_witness :
  __init__ nan (fun _ => 0%float) 1 2 1 true false = Ok fresh_layer /\
  total_rows [(identity_draws, [[1.5%float]]); (identity_draws, [[2.5%float]])] <= 2 /\
  exists self',
    fill_all fresh_layer
      [(identity_draws, [[1.5%float]]); (identity_draws, [[2.5%float]])]
    = (self', Ok tt) /\
    size self' = total_rows [(identity_draws, [[1.5%float]]); (identity_draws, [[2.5%float]])] /\
    slice (values self') 0 (size self')
    = concat (map snd [(identity_draws, [[1.5%float]]); (identity_draws, [[2.5%float]])]).
Proof.
  split; [reflexivity|]. split; [vm_compute; discriminate|].
  apply (fill_keeps_arrival_order nan (fun _ => 0%float) 1 2 1 true false fresh_layer).
  - reflexivity.
  - vm_compute. discriminate.
Defined.

(** ** Replacement claims *)

Lemma getitem_index_perm {A : Type} (t : list A) (idx idx' : list nat) :
  Permutation idx idx' ->
  forall rows, getitem_index t idx = Ok rows ->
  exists rows', getitem_index t idx' = Ok rows' /\ Permutation rows rows'.
Proof.
  induction 1 as [| i l l' _ IH | i j l | l l' l'' _ IH1 _ IH2]; intros rows Hget.
  - exists rows. split; [exact Hget | apply Permutation_refl].
  - simpl in *. destruct (nth_error t i) as [r|]; [|discriminate].
    destruct (getitem_index t l) as [rs|e]; simpl in Hget; [|discriminate].
    injection Hget as <-.
    destruct (IH rs eq_refl) as (rs' & -> & Hp).
    exists (r :: rs'). split; [reflexivity | apply perm_skip; exact Hp].
  - simpl in *.
    destruct (nth_error t j) as [rj|]; [|discriminate].
    destruct (nth_error t i) as [ri|]; [|discriminate].
    destruct (getitem_index t l) as [rs|e]; simpl in Hget; [|discriminate].
    injection Hget as <-.
    exists (ri :: rj :: rs). split; [reflexivity | apply perm_swap].
  - destruct (IH1 rows Hget) as (rows1 & H1 & Hp1).
    destruct (IH2 rows1 H1) as (rows2 & H2 & Hp2).
    exists rows2. split; [exact H2 | eapply Permutation_trans; eassumption].
Qed.

Lemma skipn_nth_error {A : Type} (t : list A) : forall a r,
  nth_error t a = Some r -> skipn a t = r :: skipn (S a) t.
Proof.
  induction t as [|x t IH]; intros [|a] r H; simpl in *; try discriminate.
  - injection H as ->. reflexivity.
  - apply IH. exact H.
Qed.

Lemma getitem_index_seq {A : Type} (t : list A) (k : nat) : forall a,
  (a + k <= length t)%nat ->
  getitem_index t (seq a k) = Ok (firstn k (skipn a t)).
Proof.
  induction k as [|k IH]; intros a Hk.
  - reflexivity.
  - cbn [seq getitem_index]. rewrite IH by lia.
    destruct (nth_error t a) as [r|] eqn:Er.
    + rewrite (skipn_nth_error t a r Er). reflexivity.
    + apply nth_error_None in Er. lia.
Qed.

Section ReplacementClaims.

Context {scalar : Type}.
Implicit Types (self : BatchPitNorm1d scalar) (rng : draws) (data : tensor2 scalar).

(** C5 (as the code has it): on a full buffer, with
    [take_num_samples_when_full = k > 0] and [min(n, k) <= capacity], a
    [fill] call overwrites exactly [min(n, k)] pairwise distinct rows
    with rows of the batch and leaves every other row and [size]
    unchanged. *)
Theorem full_fill_replaces_exactly self rng data :
  wf self -> draws_ok rng -> training self = true ->
  size self = num_pit_samples self ->
  0 < take_num_samples_when_full self ->
  Z.min (len data) (take_num_samples_when_full self) <= num_pit_samples self ->
  replacement_conserved self rng data.
Proof.
  intros Hwf Hrng Ht Hfull Htake Hroom.
  pose proof Hwf as (Hcap & _ & Hsize & Hlen).
  pose proof (len_nonneg data) as Hn.
  unfold replacement_conserved.
  destruct (Z.eq_dec (len data) 0) as [Hz|Hnz].
  - (* an empty batch goes through the first branch and writes nothing *)
    assert (data = []) as -> by (destruct data; [reflexivity | discriminate]).
    rewrite fill_fits by (auto; unfold capacity_left; simpl; lia).
    eexists. exists [], []. split; [reflexivity|]. simpl.
    rewrite firstn_all2, skipn_all2 by (unfold values, len in *; lia).
    rewrite app_nil_r.
    split; [unfold len; simpl; lia|].
    split; [|split; [intros r [] | lia]].
    unfold overwrites_exactly.
    split; [constructor|]. split; [reflexivity|]. split; [reflexivity|].
    split; [|reflexivity].
    intros p s Hp. destruct p; discriminate.
  - rewrite fill_full by (auto; lia).
    destruct (fill_replace_ok self rng data Hwf Hrng Htake Hroom) as (rows & Hget & ->).
    destruct (use_batch_indexes_spec self rng data Hrng) as (rows' & Hget' & Hlr & Hin);
      [lia|].
    rewrite Hget in Hget'. injection Hget' as <-.
    destruct (use_values_indexes_spec self rng
                (Z.min (len data) (take_num_samples_when_full self)) Hwf Hrng)
      as (Hnd & Hls & Hrange); [lia|].
    set (slots := slice (randperm_values rng (num_pit_samples self)) 0
                        (Z.min (len data) (take_num_samples_when_full self))) in *.
    eexists. exists slots, rows. split; [reflexivity|]. simpl.
    assert (Hsame : length slots = length rows) by (unfold len in *; lia).
    split; [lia|]. split; [|split; [exact Hin | reflexivity]].
    unfold overwrites_exactly, values in *. simpl.
    split; [exact Hnd|]. split; [exact Hsame|]. split; [apply length_scatter|]. split.
    + intros p s Hp. split.
      * apply Hrange. eapply nth_error_In. exact Hp.
      * apply scatter_hit; auto.
    + intros j Hj. apply scatter_frame. exact Hj.
Qed.

(** C10: on a full buffer with [take_num_samples_when_full > 0], a
    [fill] call returns normally only if [min(n, take) <= capacity];
    when [min(n, take) > capacity], line 80 pairs [min(n, take)] batch
    rows with [capacity] distinct slots and the call raises a shape
    mismatch, the object being left as it was. *)
Theorem full_fill_needs_room self rng data :
  wf self -> draws_ok rng ->
  size self = num_pit_samples self ->
  0 < take_num_samples_when_full self ->
  (snd (fill self rng data) = Ok tt ->
     Z.min (len data) (take_num_samples_when_full self) <= num_pit_samples self) /\
  (training self = true ->
   num_pit_samples self < Z.min (len data) (take_num_samples_when_full self) ->
     fill self rng data = (self, Raise (RuntimeError ShapeMismatch)) /\
     exists rows,
       rows_taken self rng data = Ok rows /\
       len rows = Z.min (len data) (take_num_samples_when_full self) /\
       NoDup (slice (randperm_values rng (num_pit_samples self)) 0
                (Z.min (len data) (take_num_samples_when_full self))) /\
       len (slice (randperm_values rng (num_pit_samples self)) 0
              (Z.min (len data) (take_num_samples_when_full self)))
       = num_pit_samples self).
Proof.
  intros Hwf Hrng Hfull Htake.
  pose proof Hwf as (Hcap & _ & Hsize & Hlen).
  assert (Hfail : training self = true ->
                  num_pit_samples self
                  < Z.min (len data) (take_num_samples_when_full self) ->
                  fill self rng data = (self, Raise (RuntimeError ShapeMismatch))).
  { intros Ht Hmany. rewrite fill_full by (auto; lia).
    apply fill_replace_too_many; assumption. }
  split.
  - intros Hok.
    destruct (Z_le_gt_dec (Z.min (len data) (take_num_samples_when_full self))
                          (num_pit_samples self)) as [Hle|Hgt]; [exact Hle|].
    destruct (training self) eqn:Ht.
    + rewrite Hfail in Hok by (auto; lia). discriminate.
    + rewrite fill_not_training in Hok by exact Ht. discriminate.
  - intros Ht Hmany. split; [apply Hfail; assumption|].
    destruct (use_batch_indexes_spec self rng data Hrng) as (rows & Hget & Hlr & _);
      [lia|].
    destruct (use_values_indexes_spec self rng
                (Z.min (len data) (take_num_samples_when_full self)) Hwf Hrng)
      as (Hnd & Hls & _); [lia|].
    exists rows. repeat split; try assumption. lia.
Qed.

(** C4 (what the code does): on a full buffer with room for the rows it
    takes, the rows a non-empty [fill] call writes are, whatever the
    oracle returns, the first [min(n, take)] rows of the batch in some
    order. *)
Theorem full_fill_takes_leading_rows self rng data :
  wf self -> draws_ok rng -> training self = true ->
  size self = num_pit_samples self ->
  0 < take_num_samples_when_full self -> 0 < len data ->
  Z.min (len data) (take_num_samples_when_full self) <= num_pit_samples self ->
  exists rows,
    fill self rng data
    = (set_buffer self
         (scatter (values self)
            (slice (randperm_values rng (num_pit_samples self)) 0
               (Z.min (len data) (take_num_samples_when_full self)))
            rows)
         (size self), Ok tt) /\
    Permutation rows
      (firstn (Z.to_nat (Z.min (len data) (take_num_samples_when_full self))) data).
Proof.
  intros Hwf Hrng Ht Hfull Htake Hn Hroom.
  rewrite fill_full by (auto; lia).
  destruct (fill_replace_ok self rng data Hwf Hrng Htake Hroom) as (rows & Hget & ->).
  exists rows. split; [reflexivity|].
  unfold rows_taken in Hget.
  set (k := Z.min (len data) (take_num_samples_when_full self)) in *.
  destruct Hrng as [Hperm _]. specialize (Hperm k).
  destruct (getitem_index_perm data _ _ (Permutation_sym Hperm) rows Hget)
    as (rows' & Hseq & Hp).
  rewrite getitem_index_seq in Hseq by (unfold k, len in *; lia).
  injection Hseq as <-. exact Hp.
Qed.

End ReplacementClaims.

(** C5, witness: one row offered to the full two-row layer. *)
Lemma full_fill_replaces_exactly_witness :
  wf full_layer /\ draws_ok identity_draws /\ training full_layer = true /\
  size full_layer = num_pit_samples full_layer /\
  0 < take_num_samples_when_full full_layer /\
  Z.min (len [[3.5%float]]) (take_num_samples_when_full full_layer)
  <= num_pit_samples full_layer /\
  replacement_conserved full_layer identity_draws [[3.5%float]].
Proof.
  assert (Hwf : wf full_layer) by (unfold wf, len; simpl; lia).
  split; [exact Hwf|]. split; [exact identity_draws_ok|].
  split; [reflexivity|]. split; [reflexivity|].
  split; [reflexivity|]. split; [vm_compute; discriminate|].
  apply (full_fill_replaces_exactly full_layer identity_draws [[3.5%float]]).
  - exact Hwf.
  - exact identity_draws_ok.
  - reflexivity.
  - reflexivity.
  - reflexivity.
  - vm_compute. discriminate.
Defined.

(** C5, counterexample: a full one-row buffer, two rows to replace per
    call, a batch of two rows: the call does not overwrite two rows. *)
Lemma full_fill_cannot_replace_two_of_one :
  training tight_layer = true /\
  size tight_layer = num_pit_samples tight_layer /\
  0 < take_num_samples_when_full tight_layer /\
  ~ replacement_conserved tight_layer identity_draws [[2.5%float]; [3.5%float]].
Proof.
  repeat split.
  intros (self' & slots & rows & Hfill & _).
  vm_compute in Hfill. discriminate Hfill.
Qed.

(** C10, witness: the one-row layer raises on a batch of two rows, and
    the two-row layer takes one row of a batch. *)
Lemma full_fill_needs_room_witness :
  (wf tight_layer /\ draws_ok identity_draws /\
   size tight_layer = num_pit_samples tight_layer /\
   0 < take_num_samples_when_full tight_layer /\
   training tight_layer = true /\
   num_pit_samples tight_layer
   < Z.min (len [[2.5%float]; [3.5%float]]) (take_num_samples_when_full tight_layer) /\
   fill tight_layer identity_draws [[2.5%float]; [3.5%float]]
   = (tight_layer, Raise (RuntimeError ShapeMismatch))) /\
  (wf full_layer /\
   size full_layer = num_pit_samples full_layer /\
   0 < take_num_samples_when_full full_layer /\
   snd (fill full_layer identity_draws [[3.5%float]]) = Ok tt /\
   Z.min (len [[3.5%float]]) (take_num_samples_when_full full_layer)
   <= num_pit_samples full_layer).
Proof.
  assert (Hwt : wf tight_layer) by (unfold wf, len; simpl; lia).
  assert (Hwf : wf full_layer) by (unfold wf, len; simpl; lia).
  split.
  - split; [exact Hwt|]. split; [exact identity_draws_ok|].
    split; [reflexivity|]. split; [reflexivity|]. split; [reflexivity|].
    split; [reflexivity|].
    apply (full_fill_needs_room tight_layer identity_draws [[2.5%float]; [3.5%float]]
             Hwt identity_draws_ok eq_refl eq_refl); reflexivity.
  - split; [exact Hwf|]. split; [reflexivity|]. split; [reflexivity|].
    split; [reflexivity|].
    apply (full_fill_needs_room full_layer identity_draws [[3.5%float]]
             Hwf identity_draws_ok eq_refl eq_refl). reflexivity.
Defined.

(** C4, witness: two rows offered to the full two-row layer. *)
Lemma full_fill_takes_leading_rows_witness :
  wf full_layer /\ draws_ok reversing_draws /\ training full_layer = true /\
  size full_layer = num_pit_samples full_layer /\
  0 < take_num_samples_when_full full_layer /\
  0 < len [[3.5%float]; [4.5%float]] /\
  Z.min (len [[3.5%float]; [4.5%float]]) (take_num_samples_when_full full_layer)
  <= num_pit_samples full_layer /\
  exists rows,
    fill full_layer reversing_draws [[3.5%float]; [4.5%float]]
    = (set_buffer full_layer
         (scatter (values full_layer)
            (slice (randperm_values reversing_draws (num_pit_samples full_layer)) 0
               (Z.min (len [[3.5%float]; [4.5%float]])
                      (take_num_samples_when_full full_layer)))
            rows)
         (size full_layer), Ok tt) /\
    Permutation rows
      (firstn (Z.to_nat (Z.min (len [[3.5%float]; [4.5%float]])
                               (take_num_samples_when_full full_layer)))
              [[3.5%float]; [4.5%float]]).
Proof.
  assert (Hwf : wf full_layer) by (unfold wf, len; simpl; lia).
  split; [exact Hwf|]. split; [exact reversing_draws_ok|].
  split; [reflexivity|]. split; [reflexivity|]. split; [reflexivity|].
  split; [reflexivity|]. split; [vm_compute; discriminate|].
  apply (full_fill_takes_leading_rows full_layer reversing_draws
           [[3.5%float]; [4.5%float]] Hwf reversing_draws_ok);
    try reflexivity.
  vm_compute. discriminate.
Defined.

(** C4, at a concrete input: whatever permutations the oracle returns,
    the full two-row layer takes row 0 of a two-row batch; row 1 is never
    the one written. *)
Lemma second_batch_row_never_taken (rng : draws) :
  draws_ok rng ->
  rows_taken full_layer rng [[3.5%float]; [4.5%float]] = Ok [[3.5%float]].
Proof.
  intros [Hperm _]. unfold rows_taken.
  assert (Hk : Z.min (len [[3.5%float]; [4.5%float]])
                     (take_num_samples_when_full full_layer) = 1) by reflexivity.
  rewrite Hk. specialize (Hperm 1).
  change (Permutation [0%nat] (randperm_batch rng 1)) in Hperm.
  apply Permutation_length_1_inv in Hperm. rewrite Hperm. reflexivity.
Qed.

(** ** The forward pass *)

Lemma fails_without_message_bind {A B : Type} (o : outcome A) (k : A -> outcome B) :
  fails_without_message o -> (forall a, fails_without_message (k a)) ->
  fails_without_message (bind o k).
Proof.
  intros Ho Hk e. destruct o as [a|e']; simpl.
  - apply Hk.
  - intros [= <-]. apply Ho. reflexivity.
Qed.

Lemma fails_without_message_Ok {A : Type} (a : A) : fails_without_message (Ok a).
Proof. intros e H. discriminate H. Qed.

Lemma fails_without_message_vmap {A B : Type} (f : A -> outcome B) (xs : list A) :
  (forall x, fails_without_message (f x)) -> fails_without_message (vmap f xs).
Proof.
  intros Hf. induction xs as [|x xs IH]; simpl.
  - apply fails_without_message_Ok.
  - apply fails_without_message_bind; [apply Hf|]. intros y.
    apply fails_without_message_bind; [exact IH|]. intros ys.
    apply fails_without_message_Ok.
Qed.

Lemma fails_without_message_columns {A : Type} (t : list (list A)) (n : nat) :
  fails_without_message (columns t n).
Proof.
  apply fails_without_message_vmap. intros j.
  apply fails_without_message_vmap. intros row.
  destruct (nth_error row j); intros e; [discriminate|].
  intros [= <-]. exact I.
Qed.

Lemma slice_tail_shorter {A : Type} (l : list A) (a : Z) :
  0 < a -> 0 < len l -> (length (slice l a (len l)) < length l)%nat.
Proof.
  intros Ha Hl. unfold slice, slice_count, slice_start, norm_index, len in *.
  rewrite length_firstn, length_skipn.
  destruct (a <? 0) eqn:E; [apply Z.ltb_lt in E; lia|]. lia.
Qed.

Section ForwardClaims.

Context {scalar : Type} {ops : TorchOps scalar}.
Implicit Types (self : BatchPitNorm1d scalar) (rng : draws) (x : tensor2 scalar).

(** The numeric part of [forward] can fail, but never with an assertion
    that carries a message. *)
Lemma forward_transform_fails_without_message self x :
  fails_without_message (forward_transform self x).
Proof.
  unfold forward_transform.
  destruct (negb _); [intros e [= <-]; exact I|].
  apply fails_without_message_bind.
  - unfold vmap_features.
    destruct (negb _); [intros e [= <-]; exact I|].
    apply fails_without_message_bind; [apply fails_without_message_columns|].
    intros cols. apply fails_without_message_bind;
      [|intros res; apply fails_without_message_columns].
    apply fails_without_message_vmap. intros [col b]. simpl.
    unfold process_merged, make_cdf.
    assert (Hbw : fails_without_message (make_cdf_bw self (slice col 0 (size self)) b)).
    { unfold make_cdf_bw. destruct (negb _); [|apply fails_without_message_Ok].
      assert (Hq : forall q,
                 fails_without_message (torch_quantile (slice col 0 (size self)) q)).
      { intros q. unfold torch_quantile. destruct (slice col 0 (size self)).
        - intros e [= <-]. exact I.
        - apply fails_without_message_Ok. }
      apply fails_without_message_bind; [apply Hq|]. intros q25.
      apply fails_without_message_bind; [apply Hq|]. intros q75.
      apply fails_without_message_Ok. }
    destruct (make_cdf_bw self (slice col 0 (size self)) b) as [h|e]; simpl.
    + apply fails_without_message_vmap. intros v.
      destruct (len (slice col 0 (size self)) =? 0);
        [intros e [= <-]; exact I | apply fails_without_message_Ok].
    + intros e' [= <-]. apply (Hbw e). reflexivity.
  - intros result. destruct (normal_backtransform self).
    + unfold standard_normal_ppf. destruct (negb _).
      * intros e [= <-]. exact I.
      * apply fails_without_message_Ok.
    + apply fails_without_message_Ok.
Qed.

(** [forward] changes the object only through [fill]. *)
Lemma forward_state self rng x :
  fst (forward self rng x) = if training self then fst (fill self rng x) else self.
Proof.
  unfold forward. destruct (training self).
  - destruct (fill self rng x) as [self' [[]|e]]; reflexivity.
  - destruct (negb (size self >? 0)); reflexivity.
Qed.

(** C7: [fill] outside training mode raises the assertion about the
    training mode; [forward] in evaluation mode with [size = 0] raises
    the assertion about the missing sample; both leave the object as it
    was. In evaluation mode with [size >= 1], [forward] leaves the object
    as it was and goes on to the transform, whose failures, if any, are
    not assertions with a message. *)
Theorem mode_violations_fail_fast self rng x :
  training self = false ->
  fill self rng x = (self, Raise (AssertionError (Some msg_need_training))) /\
  (size self = 0 ->
     forward self rng x = (self, Raise (AssertionError (Some msg_no_sample)))) /\
  (1 <= size self ->
     forward self rng x = (self, forward_transform self x) /\
     forall m, snd (forward self rng x) <> Raise (AssertionError (Some m))).
Proof.
  intros Ht. split; [apply fill_not_training; exact Ht|]. split.
  - intros Hz. unfold forward. rewrite Ht, Hz. reflexivity.
  - intros Hpos. unfold forward. rewrite Ht.
    destruct (Z.gtb_spec (size self) 0); [|lia]. simpl. split; [reflexivity|].
    intros m Hm.
    apply (forward_transform_fails_without_message self x _ Hm).
Qed.

End ForwardClaims.

(** C7, witness: the evaluation-mode layers over the reals, with one
    stored row and with none. *)
Lemma mode_violations_fail_fast_witness :
  (training eval_layer = false /\ 1 <= size eval_layer /\
   fill eval_layer identity_draws [[2%R]]
   = (eval_layer, Raise (AssertionError (Some msg_need_training))) /\
   forward eval_layer identity_draws [[2%R]]
   = (eval_layer, forward_transform eval_layer [[2%R]])) /\
  (training empty_eval_layer = false /\ size empty_eval_layer = 0 /\
   forward empty_eval_layer identity_draws [[2%R]]
   = (empty_eval_layer, Raise (AssertionError (Some msg_no_sample)))).
Proof.
  pose proof (mode_violations_fail_fast eval_layer identity_draws [[2%R]] eq_refl)
    as (Hfill & _ & Hfwd).
  pose proof (mode_violations_fail_fast empty_eval_layer identity_draws [[2%R]] eq_refl)
    as (_ & Hempty & _).
  split.
  - split; [reflexivity|]. split; [simpl; lia|]. split; [exact Hfill|].
    apply Hfwd. simpl. lia.
  - split; [reflexivity|]. split; [reflexivity|]. apply Hempty. reflexivity.
Defined.

(** ** Independence of the stored bandwidths *)

Lemma vmap_combine_ignore {A B C : Type} (f g : A -> B -> outcome C) :
  (forall a b1 b2, f a b1 = g a b2) ->
  forall (l : list A) (bs1 bs2 : list B),
    length bs1 = length bs2 ->
    vmap (fun ab => f (fst ab) (snd ab)) (combine l bs1)
    = vmap (fun ab => g (fst ab) (snd ab)) (combine l bs2).
Proof.
  intros Hfg. induction l as [|a l IH]; intros [|b1 bs1] [|b2 bs2] Hlen;
    simpl in *; try reflexivity; try discriminate.
  rewrite (Hfg a b1 b2), (IH bs1 bs2) by congruence. reflexivity.
Qed.

Section BandwidthClaims.

Context {scalar : Type} {ops : TorchOps scalar}.
Implicit Types (self : BatchPitNorm1d scalar) (rng : draws) (x : tensor2 scalar).

(** [fill] neither reads nor writes [bw]. *)
Lemma fill_set_bw (b : tensor1 scalar) rng (n : nat) : forall data self,
  (length data < n)%nat ->
  fill (set_bw self b) rng data
  = (set_bw (fst (fill self rng data)) b, snd (fill self rng data)).
Proof.
  induction n as [|n IH]; intros data self Hn; [lia|].
  rewrite (fill_body (set_bw self b)), (fill_body self).
  unfold capacity_left, values. simpl.
  destruct (negb (training self)); [reflexivity|].
  destruct (Z.geb_spec (num_pit_samples self - size self) (len data)).
  - destruct (setitem_slice _ _ _ _); reflexivity.
  - destruct (Z.gtb_spec (num_pit_samples self - size self) 0).
    + destruct (setitem_slice _ _ _ _) as [v|e]; [|reflexivity].
      apply (IH _ (set_buffer self v (size self + (num_pit_samples self - size self)))).
      pose proof (slice_tail_shorter data (num_pit_samples self - size self)).
      pose proof (len_nonneg data). lia.
    + unfold fill_replace, values. simpl.
      destruct (_ =? 0); [reflexivity|].
      destruct (bind _ _); reflexivity.
Qed.

(** [fill] keeps the bandwidth configuration. *)
Lemma fill_keeps_bw rng (n : nat) : forall data self,
  (length data < n)%nat ->
  trainable_bandwidths (fst (fill self rng data)) = trainable_bandwidths self /\
  bw (fst (fill self rng data)) = bw self.
Proof.
  induction n as [|n IH]; intros data self Hn; [lia|].
  rewrite (fill_body self).
  unfold capacity_left, values.
  destruct (negb (training self)); [split; reflexivity|].
  destruct (Z.geb_spec (num_pit_samples self - size self) (len data)).
  - destruct (setitem_slice _ _ _ _); split; reflexivity.
  - destruct (Z.gtb_spec (num_pit_samples self - size self) 0).
    + destruct (setitem_slice _ _ _ _) as [v|e]; [|split; reflexivity].
      apply (IH _ (set_buffer self v (size self + (num_pit_samples self - size self)))).
      pose proof (slice_tail_shorter data (num_pit_samples self - size self)).
      pose proof (len_nonneg data). lia.
    + unfold fill_replace, values.
      destruct (_ =? 0); [split; reflexivity|].
      destruct (bind _ _); split; reflexivity.
Qed.

(** Without trainable bandwidths a feature is processed the same way
    whatever bandwidth entry comes with it. *)
Lemma process_merged_ignores_bw self (b : tensor1 scalar) (col : list scalar)
    (v1 v2 : scalar) :
  trainable_bandwidths self = false ->
  process_merged (set_bw self b) col v1 = process_merged self col v2.
Proof.
  intros Hh. unfold process_merged, make_cdf, make_cdf_bw. simpl.
  rewrite Hh. reflexivity.
Qed.

(** C9: when [trainable_bandwidths] is false, replacing the contents of
    [self.bw] by any tensor of the same shape changes neither the output
    of [forward] (value or exception) nor what it does to the object. *)
Theorem forward_ignores_stored_bw self rng x (b : tensor1 scalar) :
  trainable_bandwidths self = false ->
  length b = length (bw self) ->
  snd (forward (set_bw self b) rng x) = snd (forward self rng x) /\
  fst (forward (set_bw self b) rng x) = set_bw (fst (forward self rng x)) b.
Proof.
  intros Hh Hlen.
  assert (Ht : forall s, trainable_bandwidths s = false ->
                 length b = length (bw s) ->
                 forward_transform (set_bw s b) x = forward_transform s x).
  { intros s Hs Hl. unfold forward_transform, vmap_features, values. simpl.
    destruct (negb (len _ =? _)); [reflexivity|].
    unfold len. rewrite Hl.
    destruct (negb _); [reflexivity|].
    destruct (columns _ (length (bw s))) as [cols|e]; simpl; [|reflexivity].
    rewrite (vmap_combine_ignore
               (fun c v => process_merged (set_bw s b) c v)
               (fun c v => process_merged s c v)
               (fun c v1 v2 => process_merged_ignores_bw s b c v1 v2 Hs)
               cols b (bw s) Hl).
    reflexivity. }
  pose proof (fill_keeps_bw rng (S (length x)) x self (Nat.lt_succ_diag_r _))
    as [Hcfg1 Hcfg2].
  unfold forward. simpl.
  destruct (training self).
  - rewrite (fill_set_bw b rng (S (length x)) x self) by lia.
    destruct (fill self rng x) as [self' [[]|e]] eqn:Ef; simpl in *.
    + split; [|reflexivity].
      apply Ht; [rewrite Hcfg1; exact Hh | rewrite Hcfg2; exact Hlen].
    + split; reflexivity.
  - destruct (negb (size self >? 0)); simpl; [split; reflexivity|].
    split; [|reflexivity]. apply Ht; assumption.
Qed.

End BandwidthClaims.

(** C9, witness: the evaluation-mode layer with another bandwidth row. *)
Lemma forward_ignores_stored_bw_witness :
  trainable_bandwidths eval_layer = false /\
  length [5%R] = length (bw eval_layer) /\
  snd (forward (set_bw eval_layer [5%R]) identity_draws [[2%R]])
  = snd (forward eval_layer identity_draws [[2%R]]) /\
  fst (forward (set_bw eval_layer [5%R]) identity_draws [[2%R]])
  = set_bw (fst (forward eval_layer identity_draws [[2%R]])) [5%R].
Proof.
  split; [reflexivity|]. split; [reflexivity|].
  apply (forward_ignores_stored_bw eval_layer identity_draws [[2%R]] [5%R]);
    reflexivity.
Defined.

(** ** The kernel CDF in any arithmetic *)

Section KernelCdf.

Context {scalar : Type} {ops : TorchOps scalar}.

(** Whatever the scalar operations are (floating point included), the
    closure built by [make_cdf] over a non-empty sample multiplies
    [1.0 / m] with [torch.sum] of the kernel terms, one per sample
    entry and in the order of the sample. *)
Lemma make_cdf_closure (self : BatchPitNorm1d scalar) (sample : list scalar)
    (raw h : scalar) :
  sample <> [] ->
  make_cdf_bw self sample raw = Ok h ->
  exists cdf,
    make_cdf self sample raw = Ok cdf /\
    forall x,
      cdf x
      = Ok (mul (div (lit 1.0) (of_int (len sample)))
                (tsum (map (fun s =>
                              mul (lit 0.5)
                                  (add (lit 1.0)
                                       (erf (div (div (sub x s) h) (sqrt (lit 2.0))))))
                           sample))).
Proof.
  intros Hne Hbw. unfold make_cdf. rewrite Hbw. simpl.
  eexists. split; [reflexivity|]. intros x. simpl.
  destruct (Z.eqb_spec (len sample) 0) as [Hz|Hnz].
  - destruct sample; [contradiction | discriminate].
  - unfold standard_normal_cdf. rewrite !map_map. reflexivity.
Qed.

End KernelCdf.

(** ** The kernel CDF and its bandwidth, over the reals *)

Module RealClaims.

Import RealOps.
Local Open Scope R_scope.

Lemma lit_one : Q2R 1.0 = 1.
Proof. unfold Q2R. simpl. lra. Qed.

Lemma lit_two : Q2R 2.0 = 2.
Proof. unfold Q2R. simpl. lra. Qed.

Lemma spec_sum_shift (n : nat) (g : nat -> R) :
  spec_sum (S n) g = g O + spec_sum n (fun i => g (S i)).
Proof.
  induction n as [|n IH].
  - simpl. ring.
  - change (spec_sum (S (S n)) g) with (spec_sum (S n) g + g (S n)).
    rewrite IH. simpl. ring.
Qed.

(** [torch.sum] of an elementwise image is the indexed sum. *)
Lemma sum_map_spec_sum (f : R -> R) (l : list R) :
  sum (map f l) = spec_sum (length l) (fun i => f (nth i l 0)).
Proof.
  induction l as [|a l IH].
  - reflexivity.
  - change (length (a :: l)) with (S (length l)).
    rewrite spec_sum_shift. simpl. rewrite <- IH. reflexivity.
Qed.

(** [standard_normal_cdf] is the specification's [Phi], entry by entry. *)
Lemma standard_normal_cdf_spec (l : list R) :
  standard_normal_cdf l = map spec_Phi l.
Proof.
  unfold standard_normal_cdf, spec_Phi. apply map_ext. intros v.
  cbn [lit add mul div erf sqrt real_ops].
  rewrite lit_one, lit_two. reflexivity.
Qed.

(** The bandwidth [make_cdf] works with is the specification's. *)
Lemma make_cdf_bw_spec (self : BatchPitNorm1d R) (sample : list R) (raw : R) :
  sample <> [] ->
  make_cdf_bw self sample raw
  = Ok (spec_bandwidth (trainable_bandwidths self) sample raw).
Proof.
  intros Hne. unfold make_cdf_bw, spec_bandwidth.
  destruct (trainable_bandwidths self); simpl; [reflexivity|].
  destruct sample as [|a l]; [contradiction|].
  simpl. unfold len. rewrite <- INR_IZR_INZ. reflexivity.
Qed.

(** C1: for a non-empty reference sample, [make_cdf] returns a closure,
    and at every query point [x] the closure returns
    [(1/m) * sum_i Phi((x - sample[i]) / bw)], where [Phi] is
    [0.5 * (1 + erf(z / sqrt 2))] and [bw] is the bandwidth [make_cdf]
    works with: the heuristic value of line 106 or the sigmoid of
    line 108. *)
Theorem make_cdf_is_kernel_cdf (self : BatchPitNorm1d R) (sample : list R) (raw : R) :
  sample <> [] ->
  exists bw cdf,
    make_cdf_bw self sample raw = Ok bw /\
    bw = spec_bandwidth (trainable_bandwidths self) sample raw /\
    make_cdf self sample raw = Ok cdf /\
    forall x, cdf x = Ok (spec_cdf sample bw x).
Proof.
  intros Hne. pose proof (make_cdf_bw_spec self sample raw Hne) as Hbw.
  destruct (make_cdf_closure self sample raw _ Hne Hbw) as (cdf & Hcdf & Hat).
  exists (spec_bandwidth (trainable_bandwidths self) sample raw), cdf.
  split; [exact Hbw|]. split; [reflexivity|]. split; [exact Hcdf|].
  intros x. rewrite Hat. f_equal. unfold spec_cdf.
  cbn [lit of_int add sub mul div erf sqrt tsum real_ops].
  rewrite (sum_map_spec_sum
             (fun s => 0.5 * (1.0 + error_function
                                      ((x - s)
                                       / spec_bandwidth (trainable_bandwidths self) sample raw
                                       / R_sqrt.sqrt 2.0)))).
  rewrite lit_one, lit_two. unfold len. rewrite <- INR_IZR_INZ. reflexivity.
Qed.

Lemma sort_repeat (c : R) (m : nat) : sort (repeat c m) = repeat c m.
Proof.
  induction m as [|m IH]; [reflexivity|].
  change (sort (repeat c (S m))) with (insert_sorted c (sort (repeat c m))).
  rewrite IH.
  destruct m as [|m]; [reflexivity|]. simpl.
  destruct (Rle_dec c c) as [_|H]; [reflexivity|]. exfalso. apply H. lra.
Qed.

Lemma nth_repeat_in_range (c d : R) (m i : nat) :
  (i < m)%nat -> nth i (repeat c m) d = c.
Proof.
  revert i. induction m as [|m IH]; intros [|i] H; simpl; try lia; auto.
  apply IH. lia.
Qed.

(** The quantile of a constant sample is the constant. *)
Lemma linear_quantile_repeat (c q : R) (m : nat) :
  (1 <= m)%nat -> 0 <= q <= 1 -> linear_quantile (repeat c m) q = c.
Proof.
  intros Hm Hq. unfold linear_quantile.
  rewrite sort_repeat, repeat_length.
  set (rank := q * (INR m - 1)).
  assert (Hm1 : 0 <= INR m - 1).
  { apply le_INR in Hm. simpl in Hm. lra. }
  assert (Hr : 0 <= rank <= INR m - 1).
  { unfold rank. split; [apply Rmult_le_pos; lra|]. 
    rewrite <- (Rmult_1_l (INR m - 1)) at 2.
    apply Rmult_le_compat_r; lra. }
  assert (Hlo : (Z.to_nat (Zfloor rank) < m)%nat).
  { pose proof (Zfloor_bound rank) as [Hb _].
    assert (IZR (Zfloor rank) < IZR (Z.of_nat m)).
    { rewrite <- INR_IZR_INZ. lra. }
    apply lt_IZR in H. lia. }
  assert (Hhi : (Z.to_nat (Zceil rank) < m)%nat).
  { pose proof (Zceil_bound rank) as [Hb _].
    assert (IZR (Zceil rank) < IZR (Z.of_nat m)).
    { rewrite <- INR_IZR_INZ. lra. }
    apply lt_IZR in H. lia. }
  rewrite !nth_repeat_in_range by assumption. ring.
Qed.

Lemma lit_quartiles : 0 <= Q2R 0.25 <= 1 /\ 0 <= Q2R 0.75 <= 1.
Proof. unfold Q2R. simpl. lra. Qed.

(** C3 (where the code departs): for a sample of [m >= 2] equal values
    the bandwidth of line 106 is 0; it is not strictly positive. *)
Theorem heuristic_bandwidth_of_constant_sample (self : BatchPitNorm1d R)
    (c raw : R) (m : nat) :
  trainable_bandwidths self = false -> (2 <= m)%nat ->
  make_cdf_bw self (repeat c m) raw = Ok 0.
Proof.
  intros Hh Hm. unfold make_cdf_bw. rewrite Hh. simpl negb. cbv iota.
  destruct lit_quartiles as [H25 H75].
  assert (Hq : forall q, torch_quantile (repeat c m) q = Ok (quantile (repeat c m) q)).
  { intros q. destruct m; [lia | reflexivity]. }
  rewrite !Hq. simpl.
  rewrite !linear_quantile_repeat by (try lia; assumption).
  f_equal.
  replace ((c - c) / Q2R 1.34) with 0 by (unfold Rdiv; ring).
  rewrite Rmin_right by apply sqrt_pos.
  ring.
Qed.

(** On the sample 1, 2 the quartiles are 1.25 and 1.75. *)
Lemma linear_quantile_1_2 (q : R) :
  0 < q < 1 -> linear_quantile [1; 2] q = 1 + q.
Proof.
  intros Hq. unfold linear_quantile.
  assert (Hs : sort [1; 2] = [1; 2]).
  { unfold sort. simpl. destruct (Rle_dec 1 2) as [_|H]; [reflexivity | lra]. }
  rewrite Hs.
  replace (q * (INR (length [1; 2]) - 1)) with q by (simpl; lra).
  rewrite (Zfloor_eq 0 q) by (simpl; lra).
  rewrite (Zceil_eq 1 q) by (simpl; lra).
  simpl. lra.
Qed.

(** The bandwidth of line 106 is positive on the sample 1, 2. *)
Lemma heuristic_bandwidth_of_1_2 (self : BatchPitNorm1d R) (raw : R) :
  trainable_bandwidths self = false ->
  exists h, make_cdf_bw self [1; 2] raw = Ok h /\ 0 < h.
Proof.
  intros Hh. rewrite make_cdf_bw_spec by discriminate. rewrite Hh.
  eexists. split; [reflexivity|]. unfold spec_bandwidth.
  rewrite !linear_quantile_1_2 by lra.
  assert (Hstd : 0 < sample_std [1; 2]).
  { unfold sample_std, mean, sum. simpl. apply sqrt_lt_R0. lra. }
  assert (Hpow : 0 < Rpower (INR (length [1; 2])) (-0.2)).
  { unfold Rpower. apply exp_pos. }
  assert (Hmin : 0 < Rmin (sample_std [1; 2]) ((1 + 0.75 - (1 + 0.25)) / 1.34)).
  { apply Rmin_glb_lt; [exact Hstd | lra]. }
  apply Rmult_lt_0_compat; [|exact Hpow].
  apply Rmult_lt_0_compat; [lra | exact Hmin].
Qed.

End RealClaims.

(** C1, witness: the sample 1, 2 with a trainable bandwidth parameter 0. *)
Lemma make_cdf_is_kernel_cdf_witness :
  [1%R; 2%R] <> [] /\
  exists bw cdf,
    make_cdf_bw trainable_layer [1%R; 2%R] 0%R = Ok bw /\
    bw = RealOps.spec_bandwidth (trainable_bandwidths trainable_layer) [1%R; 2%R] 0%R /\
    make_cdf trainable_layer [1%R; 2%R] 0%R = Ok cdf /\
    forall x, cdf x = Ok (RealOps.spec_cdf [1%R; 2%R] bw x).
Proof.
  split; [discriminate|].
  apply (RealClaims.make_cdf_is_kernel_cdf trainable_layer [1%R; 2%R] 0%R).
  discriminate.
Defined.

(** C3, witness: the sample 5, 5. *)
Lemma heuristic_bandwidth_of_constant_sample_witness :
  trainable_bandwidths eval_layer = false /\ (2 <= 2)%nat /\
  make_cdf_bw eval_layer (repeat 5%R 2) 0%R = Ok 0%R.
Proof.
  split; [reflexivity|]. split; [lia|].
  apply (RealClaims.heuristic_bandwidth_of_constant_sample eval_layer 5%R 0%R 2).
  - reflexivity.
  - lia.
Defined.

(** * Further properties of the code *)

(** ** [fill]: what it changes, and when it returns *)

Section FillFurther.

Context {scalar : Type}.
Implicit Types (self : BatchPitNorm1d scalar) (rng : draws) (data : tensor2 scalar).

Lemma set_buffer_same self : set_buffer self (cdf_data self) (size self) = self.
Proof. destruct self. reflexivity. Qed.

Lemma set_buffer_twice self v s v' s' :
  set_buffer (set_buffer self v s) v' s' = set_buffer self v' s'.
Proof. reflexivity. Qed.

Lemma fill_frame_fuel rng (n : nat) : forall data self,
  (length data < n)%nat ->
  exists v s, fst (fill self rng data) = set_buffer self v s.
Proof.
  induction n as [|n IH]; intros data self Hn; [lia|].
  rewrite (fill_body self). unfold capacity_left, values.
  assert (Hself : exists v s, self = set_buffer self v s).
  { exists (cdf_data self), (size self). symmetry. apply set_buffer_same. }
  destruct (negb (training self)); [exact Hself|].
  destruct (Z.geb_spec (num_pit_samples self - size self) (len data)).
  - destruct (setitem_slice _ _ _ _) as [v|e]; simpl; [eauto | exact Hself].
  - destruct (Z.gtb_spec (num_pit_samples self - size self) 0).
    + destruct (setitem_slice _ _ _ _) as [v|e]; [|exact Hself].
      destruct (IH (slice data (num_pit_samples self - size self) (len data))
                   (set_buffer self v (size self + (num_pit_samples self - size self))))
        as (v' & s' & E).
      { pose proof (slice_tail_shorter data (num_pit_samples self - size self)).
        pose proof (len_nonneg data). lia. }
      rewrite E, set_buffer_twice. eauto.
    + destruct (fill_replace_state self rng data) as [E | (v & E & _)];
        rewrite E; [exact Hself | eauto].
Qed.

(** X1: whatever the batch, the mode and the oracle, and whether it
    returns or raises, [fill] changes nothing of the object but the
    buffer and [size]: the capacity, the replacement size, the feature
    count, the bandwidths and both flags stay as they were. *)
Theorem fill_changes_buffer_only self rng data :
  exists v s, fst (fill self rng data) = set_buffer self v s.
Proof. apply (fill_frame_fuel rng (S (length data)) data self). lia. Qed.

(** X2: on a well-formed object an empty batch changes nothing; the
    call returns normally in training mode and raises the training
    assertion otherwise. *)
Theorem fill_empty_batch self rng :
  wf self ->
  fill self rng []
  = (self, if training self then Ok tt
           else Raise (AssertionError (Some msg_need_training))).
Proof.
  intros Hwf. pose proof Hwf as (Hcap & _ & Hsize & Hlen).
  destruct (training self) eqn:Ht.
  - rewrite fill_fits by (auto; unfold capacity_left, len; simpl; lia).
    simpl. rewrite Nat.add_0_r, firstn_skipn, Z.add_0_r.
    unfold values. rewrite set_buffer_same. reflexivity.
  - apply fill_not_training. exact Ht.
Qed.

(** X3: with replacement switched off ([take_num_samples_when_full = 0])
    a [fill] call in training mode always returns normally, and it
    appends the first [min(n, capacity_left)] rows of the batch, in
    order, to the stored rows; the rest of the batch is dropped. *)
Theorem fill_without_replacement self rng data :
  wf self -> training self = true -> take_num_samples_when_full self = 0 ->
  exists self',
    fill self rng data = (self', Ok tt) /\
    size self' = size self + Z.min (len data) (capacity_left self) /\
    slice (values self') 0 (size self')
    = slice (values self) 0 (size self)
        ++ firstn (Z.to_nat (Z.min (len data) (capacity_left self))) data.
Proof.
  intros Hwf Ht Hz. pose proof Hwf as (Hcap & _ & Hsize & Hlen).
  pose proof (len_nonneg data) as Hn. unfold capacity_left in *.
  rewrite (slice_prefix (values self)) by lia.
  destruct (Z_le_gt_dec (len data) (num_pit_samples self - size self)) as [Hfit|Hover].
  - rewrite fill_fits by (auto; unfold capacity_left; lia).
    eexists. split; [reflexivity|]. unfold values in *. simpl.
    rewrite Z.min_l by lia. split; [reflexivity|].
    rewrite (firstn_all2 (n := Z.to_nat (len data)) data) by (unfold len in *; lia).
    rewrite slice_prefix.
    2:{ rewrite !len_app. unfold len in *. rewrite length_firstn, length_skipn. lia. }
    set (A := firstn (Z.to_nat (size self)) (cdf_data self)).
    replace (Z.to_nat (size self + len data)) with (length (A ++ data)).
    2:{ rewrite length_app. unfold A. rewrite length_firstn. unfold len in *. lia. }
    rewrite app_assoc, firstn_app, firstn_all, Nat.sub_diag. simpl.
    apply app_nil_r.
  - rewrite Z.min_r by lia.
    destruct (Z_lt_le_dec 0 (num_pit_samples self - size self)) as [Hroom|Hfull].
    + rewrite fill_overflow by (auto; unfold capacity_left; lia).
      rewrite fill_replace_disabled by exact Hz.
      eexists. split; [reflexivity|]. unfold values, capacity_left in *. simpl.
      split; [lia|].
      apply slice_over. rewrite len_app. unfold len in *.
      rewrite !length_firstn. lia.
    + rewrite fill_full by (auto; lia).
      rewrite fill_replace_disabled by exact Hz.
      exists self. split; [reflexivity|]. split; [lia|].
      replace (num_pit_samples self - size self) with 0 by lia.
      simpl. rewrite app_nil_r. apply slice_prefix. lia.
Qed.

(** X4: a [fill] call in training mode that has to split its batch and
    then replace more rows than the buffer has slots raises a shape
    mismatch after the head of the batch has been stored: the object it
    leaves behind is full. *)
Theorem fill_failure_keeps_stored_head self rng data :
  wf self -> draws_ok rng -> training self = true ->
  0 < capacity_left self < len data ->
  num_pit_samples self
  < Z.min (len data - capacity_left self) (take_num_samples_when_full self) ->
  fill self rng data
  = (set_buffer self
       (firstn (Z.to_nat (size self)) (values self)
          ++ firstn (Z.to_nat (capacity_left self)) data)
       (num_pit_samples self),
     Raise (RuntimeError ShapeMismatch)).
Proof.
  intros Hwf Hrng Ht Hover Hmany. pose proof Hwf as (Hcap & Htake & Hsize & Hlen).
  rewrite fill_overflow by assumption.
  set (half := set_buffer self _ _).
  assert (Hhalf : wf half).
  { unfold wf, half, values, capacity_left in *. simpl. repeat split; try lia.
    rewrite len_app. unfold len in *. rewrite !length_firstn. lia. }
  apply (fill_replace_too_many half rng _ Hhalf Hrng).
  unfold half, capacity_left, len in *. simpl. rewrite length_skipn. lia.
Qed.

(** X5: in training mode a batch with at least [capacity_left] rows
    leaves the buffer full, whether the call returns or raises. *)
Theorem fill_saturates self rng data :
  wf self -> training self = true -> capacity_left self <= len data ->
  is_full (fst (fill self rng data)) = true.
Proof.
  intros Hwf Ht Hge. pose proof Hwf as (Hcap & Htake & Hsize & Hlen).
  unfold is_full, capacity_left in *. apply Z.eqb_eq.
  destruct (Z_le_gt_dec (len data) (num_pit_samples self - size self)) as [Hfit|Hover].
  - rewrite fill_fits by (auto; unfold capacity_left; lia). simpl. lia.
  - destruct (Z_lt_le_dec 0 (num_pit_samples self - size self)) as [Hroom|Hfull].
    + rewrite fill_overflow by (auto; unfold capacity_left; lia).
      destruct (fill_replace_state
                  (set_buffer self
                     (firstn (Z.to_nat (size self)) (values self)
                        ++ firstn (Z.to_nat (capacity_left self)) data)
                     (num_pit_samples self)) rng
                  (skipn (Z.to_nat (capacity_left self)) data))
        as [E | (v & E & _)]; rewrite E; reflexivity.
    + rewrite fill_full by (auto; lia).
      destruct (fill_replace_state self rng data) as [E | (v & E & _)];
        rewrite E; simpl; lia.
Qed.

(** X6: when [take_num_samples_when_full] does not exceed the capacity,
    [fill] in training mode never raises. *)
Theorem fill_returns_when_take_fits self rng data :
  wf self -> draws_ok rng -> training self = true ->
  take_num_samples_when_full self <= num_pit_samples self ->
  snd (fill self rng data) = Ok tt.
Proof.
  intros Hwf Hrng Ht Hsmall. pose proof Hwf as (Hcap & Htake & Hsize & Hlen).
  assert (Hrep : forall (s : BatchPitNorm1d scalar) d, wf s ->
            take_num_samples_when_full s = take_num_samples_when_full self ->
            num_pit_samples s = num_pit_samples self ->
            snd (fill_replace s rng d) = Ok tt).
  { intros s d Hs Et En.
    destruct (Z.eq_dec (take_num_samples_when_full s) 0) as [Hz|Hnz].
    - rewrite fill_replace_disabled by exact Hz. reflexivity.
    - destruct (fill_replace_ok s rng d Hs Hrng) as (rows & _ & ->); [lia | lia |].
      reflexivity. }
  unfold capacity_left in *.
  destruct (Z_le_gt_dec (len data) (num_pit_samples self - size self)) as [Hfit|Hover].
  - rewrite fill_fits by (auto; unfold capacity_left; lia). reflexivity.
  - destruct (Z_lt_le_dec 0 (num_pit_samples self - size self)) as [Hroom|Hfull].
    + rewrite fill_overflow by (auto; unfold capacity_left; lia).
      apply Hrep; try reflexivity.
      unfold wf, values, capacity_left in *. simpl. repeat split; try lia.
      rewrite len_app. unfold len in *. rewrite !length_firstn. lia.
    + rewrite fill_full by (auto; lia). apply Hrep; auto.
Qed.

End FillFurther.

(** ** [vmap], columns and entries *)

Lemma vmap_length {A B : Type} (f : A -> outcome B) (xs : list A) : forall ys,
  vmap f xs = Ok ys -> length ys = length xs.
Proof.
  induction xs as [|x xs IH]; intros ys H; simpl in H.
  - injection H as <-. reflexivity.
  - destruct (f x) as [y|e]; simpl in H; [|discriminate].
    destruct (vmap f xs) as [ys'|e]; simpl in H; [|discriminate].
    injection H as <-. simpl. f_equal. apply IH. reflexivity.
Qed.

Lemma vmap_nth {A B : Type} (f : A -> outcome B) (xs : list A) : forall ys i x,
  vmap f xs = Ok ys -> nth_error xs i = Some x ->
  exists y, f x = Ok y /\ nth_error ys i = Some y.
Proof.
  induction xs as [|x0 xs IH]; intros ys i x H Hi.
  - destruct i; discriminate.
  - simpl in H.
    destruct (f x0) as [y0|e] eqn:E0; simpl in H; [|discriminate].
    destruct (vmap f xs) as [ys'|e]; simpl in H; [|discriminate].
    injection H as <-.
    destruct i as [|i]; simpl in *.
    + injection Hi as <-. exists y0. split; [exact E0 | reflexivity].
    + apply (IH ys' i x eq_refl Hi).
Qed.

Lemma vmap_app_inv {A B : Type} (f : A -> outcome B) (xs1 xs2 : list A) : forall ys,
  vmap f (xs1 ++ xs2) = Ok ys ->
  exists ys1 ys2, vmap f xs1 = Ok ys1 /\ vmap f xs2 = Ok ys2 /\ ys = ys1 ++ ys2.
Proof.
  induction xs1 as [|x xs1 IH]; intros ys H; simpl in *.
  - exists [], ys. repeat split. exact H.
  - destruct (f x) as [y|e]; simpl in *; [|discriminate].
    destruct (vmap f (xs1 ++ xs2)) as [ys'|e]; simpl in H; [|discriminate].
    injection H as <-.
    destruct (IH ys' eq_refl) as (ys1 & ys2 & -> & H2 & ->).
    exists (y :: ys1), ys2. simpl. repeat split. exact H2.
Qed.

Lemma columns_nth {A : Type} (t : list (list A)) (n j : nat) (cols : list (list A)) :
  columns t n = Ok cols -> (j < n)%nat ->
  exists c, column t j = Ok c /\ nth_error cols j = Some c.
Proof.
  intros H Hj. unfold columns in H.
  apply (vmap_nth (column t) (seq 0 n) cols j j H).
  rewrite nth_error_seq. destruct (Nat.ltb_spec j n); [reflexivity | lia].
Qed.

Lemma column_entry {A : Type} (t : list (list A)) (j : nat) (c : list A) :
  column t j = Ok c ->
  length c = length t /\ forall i, nth_error c i = entry t i j.
Proof.
  intros H. split; [apply (vmap_length _ _ _ H)|].
  intros i. unfold entry.
  destruct (nth_error t i) as [row|] eqn:Er.
  - destruct (vmap_nth _ _ _ _ _ H Er) as (v & Hv & Hc).
    destruct (nth_error row j); [|discriminate]. injection Hv as ->. exact Hc.
  - apply nth_error_None. apply nth_error_None in Er.
    rewrite (vmap_length _ _ _ H). exact Er.
Qed.

Lemma entry_map_map {A B : Type} (f : A -> B) (t : list (list A)) (i j : nat) :
  entry (map (map f) t) i j = option_map f (entry t i j).
Proof.
  unfold entry. rewrite nth_error_map.
  destruct (nth_error t i) as [row|]; simpl; [|reflexivity].
  apply nth_error_map.
Qed.

Lemma slice_from {A : Type} (l : list A) (a b : Z) :
  0 <= a <= len l -> len l <= b -> slice l a b = skipn (Z.to_nat a) l.
Proof.
  intros Ha Hb. unfold slice, slice_count, slice_start, norm_index.
  destruct (a <? 0) eqn:Ea; [apply Z.ltb_lt in Ea; lia|].
  destruct (b <? 0) eqn:Eb; [apply Z.ltb_lt in Eb; lia|].
  rewrite (Z.min_l a), (Z.min_r b) by lia.
  apply firstn_all2. rewrite length_skipn. unfold len in *. lia.
Qed.

Lemma slice_app_left {A : Type} (l1 l2 : list A) :
  slice (l1 ++ l2) 0 (len l1) = l1.
Proof.
  rewrite slice_prefix.
  - unfold len. rewrite Nat2Z.id, firstn_app, firstn_all, Nat.sub_diag. simpl.
    apply app_nil_r.
  - rewrite len_app. pose proof (len_nonneg l1). pose proof (len_nonneg l2). lia.
Qed.

Lemma slice_app_right {A : Type} (l1 l2 : list A) :
  slice (l1 ++ l2) (len l1) (len l1 + len (l1 ++ l2)) = l2.
Proof.
  pose proof (len_nonneg l1). pose proof (len_nonneg l2).
  rewrite slice_from by (rewrite len_app; lia).
  unfold len. rewrite Nat2Z.id, skipn_app, skipn_all, Nat.sub_diag. reflexivity.
Qed.

(** ** [forward]: shape and entries of the output *)

Section ForwardFurther.

Context {scalar : Type} {ops : TorchOps scalar}.
Implicit Types (self : BatchPitNorm1d scalar) (rng : draws) (x y : tensor2 scalar).

(** The per-feature map of line 133, read entry by entry. *)
Lemma vmap_features_entry self (ref : tensor2 scalar) x (bws : list scalar)
    (result : tensor2 scalar) :
  len ref = size self ->
  vmap_features self (ref ++ x) bws (length x) = Ok result ->
  len bws = num_features self /\
  length result = length x /\
  (forall row, In row result -> length row = length bws) /\
  forall i j v b,
    entry x i j = Some v -> nth_error bws j = Some b ->
    exists refcol cdf c,
      column ref j = Ok refcol /\ make_cdf self refcol b = Ok cdf /\
      cdf v = Ok c /\ entry result i j = Some c.
Proof.
  intros Href H. unfold vmap_features in H.
  destruct (Z.eqb_spec (len bws) (num_features self)) as [Hnf|]; simpl in H;
    [|discriminate].
  destruct (columns (ref ++ x) (length bws)) as [cols|e] eqn:Ecols; simpl in H;
    [|discriminate].
  destruct (vmap _ (combine cols bws)) as [res|e] eqn:Eres; simpl in H; [|discriminate].
  assert (Hlcols : length cols = length bws).
  { unfold columns in Ecols. apply vmap_length in Ecols.
    rewrite length_seq in Ecols. exact Ecols. }
  assert (Hlres : length res = length bws).
  { apply vmap_length in Eres. rewrite length_combine in Eres. lia. }
  assert (Hlresult : length result = length x).
  { unfold columns in H. apply vmap_length in H. rewrite length_seq in H. exact H. }
  split; [exact Hnf|]. split; [exact Hlresult|]. split.
  - intros row Hrow. apply In_nth_error in Hrow. destruct Hrow as [i Hi].
    assert (Hlt : (i < length x)%nat).
    { rewrite <- Hlresult. apply nth_error_Some. congruence. }
    destruct (columns_nth res (length x) i result H Hlt) as (c & Hc & Hc').
    rewrite Hi in Hc'. injection Hc' as <-.
    apply column_entry in Hc. destruct Hc as [Hc _]. lia.
  - intros i j v b Hv Hb.
    assert (Hj : (j < length bws)%nat) by (apply nth_error_Some; congruence).
    assert (Hi : (i < length x)%nat).
    { apply nth_error_Some. unfold entry in Hv.
      destruct (nth_error x i); [discriminate | discriminate Hv]. }
    destruct (columns_nth (ref ++ x) (length bws) j cols Ecols Hj) as (col & Hcol & Hcj).
    unfold column in Hcol. apply vmap_app_inv in Hcol.
    destruct Hcol as (refcol & xcol & Hrefcol & Hxcol & ->).
    fold (column ref j) in Hrefcol. fold (column x j) in Hxcol.
    destruct (column_entry ref j refcol Hrefcol) as [Hlref _].
    destruct (column_entry x j xcol Hxcol) as [_ Hxe].
    assert (Hcb : nth_error (combine cols bws) j = Some (refcol ++ xcol, b)).
    { clear - Hcj Hb. revert j bws Hcj Hb.
      induction cols as [|c0 cols IH]; intros [|j] [|b0 bws] Hcj Hb;
        simpl in *; try discriminate.
      - injection Hcj as ->. injection Hb as ->. reflexivity.
      - apply IH; assumption. }
    destruct (vmap_nth _ _ _ _ _ Eres Hcb) as (r & Hr & Hrj). simpl in Hr.
    unfold process_merged in Hr.
    assert (Hsz : size self = len refcol) by (unfold len in *; lia).
    rewrite Hsz, slice_app_left, slice_app_right in Hr.
    destruct (make_cdf self refcol b) as [cdf|e] eqn:Ecdf; simpl in Hr; [|discriminate].
    assert (Hxi : nth_error xcol i = Some v) by (rewrite Hxe; exact Hv).
    destruct (vmap_nth _ _ _ _ _ Hr Hxi) as (c & Hc & Hri).
    exists refcol, cdf, c. split; [exact Hrefcol|]. split; [exact Ecdf|].
    split; [exact Hc|].
    destruct (columns_nth res (length x) i result H Hi) as (yrow & Hyrow & Hyi).
    destruct (column_entry res i yrow Hyrow) as [_ Hye].
    unfold entry at 1. rewrite Hyi, Hye. unfold entry. rewrite Hrj. exact Hri.
Qed.

(** The transform of lines 130-139, read entry by entry. *)
Lemma forward_transform_entry self x y :
  forward_transform self x = Ok y ->
  len (bw self) = num_features self /\
  length y = length x /\
  (forall row, In row y -> len row = num_features self) /\
  forall i j v b,
    entry x i j = Some v -> nth_error (bw self) j = Some b ->
    exists refcol cdf c,
      column (slice (values self) 0 (size self)) j = Ok refcol /\
      make_cdf self refcol b = Ok cdf /\ cdf v = Ok c /\
      entry y i j = Some (map_cdf_value self c).
Proof.
  intros H. unfold forward_transform in H.
  destruct (Z.eqb_spec (len (slice (values self) 0 (size self) ++ x))
                       (size self + len x)) as [Hlen|]; simpl in H; [|discriminate].
  rewrite len_app in Hlen.
  destruct (vmap_features self _ (bw self) (length x)) as [result|e] eqn:Er;
    simpl in H; [|discriminate].
  assert (Href : len (slice (values self) 0 (size self)) = size self) by lia.
  destruct (vmap_features_entry self _ x (bw self) result Href Er)
    as (Hnf & Hl & Hrows & Hent).
  assert (Hshape : forall (f : scalar -> scalar) row,
             In row (map (map f) result) -> len row = num_features self).
  { intros f row Hrow. apply in_map_iff in Hrow. destruct Hrow as (r & <- & Hr).
    unfold len in *. rewrite length_map, (Hrows r Hr). exact Hnf. }
  unfold map_cdf_value.
  destruct (normal_backtransform self).
  - unfold standard_normal_ppf in H.
    destruct (negb _); [discriminate|]. injection H as <-.
    split; [exact Hnf|]. split; [rewrite !length_map; exact Hl|]. split.
    + intros row Hrow. rewrite map_map in Hrow.
      rewrite (map_ext _ _ (fun r => map_map _ _ r)) in Hrow.
      apply (Hshape _ row Hrow).
    + intros i j v b Hv Hb.
      destruct (Hent i j v b Hv Hb) as (refcol & cdf & c & H1 & H2 & H3 & H4).
      exists refcol, cdf, c. repeat split; try assumption.
      rewrite !entry_map_map, H4. reflexivity.
  - injection H as <-.
    split; [exact Hnf|]. split; [rewrite length_map; exact Hl|]. split.
    + apply Hshape.
    + intros i j v b Hv Hb.
      destruct (Hent i j v b Hv Hb) as (refcol & cdf & c & H1 & H2 & H3 & H4).
      exists refcol, cdf, c. repeat split; try assumption.
      rewrite entry_map_map, H4. reflexivity.
Qed.

(** X7: when [forward] returns a tensor, it has one row per row of the
    batch and [num_features] entries in every row. *)
Theorem forward_output_shape self rng x self' y :
  forward self rng x = (self', Ok y) ->
  length y = length x /\ forall row, In row y -> len row = num_features self.
Proof.
  intros H. unfold forward in H.
  assert (Hnf : num_features self' = num_features self /\
                forward_transform self' x = Ok y).
  { destruct (training self).
    - destruct (fill_frame_fuel rng (S (length x)) x self (Nat.lt_succ_diag_r _))
        as (v & s & E).
      destruct (fill self rng x) as [self1 [[]|e]]; simpl in *; [|discriminate].
      injection H as Hs Hy. subst self'. split; [|exact Hy].
      rewrite E. reflexivity.
    - destruct (negb (size self >? 0)); [discriminate|].
      injection H as Hs Hy. subst self'. split; [reflexivity | exact Hy]. }
  destruct Hnf as [Hnf Ht].
  destruct (forward_transform_entry self' x y Ht) as (_ & Hl & Hrows & _).
  split; [exact Hl|]. intros row Hrow. rewrite <- Hnf. apply Hrows. exact Hrow.
Qed.

(** X8: when [forward] returns a tensor [y], its entry [(i, j)] is the
    mapped CDF value of the batch entry [(i, j)], the CDF being the one
    [make_cdf] builds from column [j] of the first [size] buffer rows (of
    the object as [forward] leaves it) and entry [j] of [self.bw]. *)
Theorem forward_entrywise self rng x self' y :
  forward self rng x = (self', Ok y) ->
  forall i j v b,
    entry x i j = Some v -> nth_error (bw self') j = Some b ->
    exists refcol cdf c,
      column (slice (values self') 0 (size self')) j = Ok refcol /\
      make_cdf self' refcol b = Ok cdf /\ cdf v = Ok c /\
      entry y i j = Some (map_cdf_value self' c).
Proof.
  intros H. unfold forward in H.
  assert (Ht : forward_transform self' x = Ok y).
  { destruct (training self).
    - destruct (fill self rng x) as [self1 [[]|e]]; simpl in *; [|discriminate].
      injection H as Hs Hy. subst self'. exact Hy.
    - destruct (negb (size self >? 0)); [discriminate|].
      injection H as Hs Hy. subst self'. exact Hy. }
  apply (forward_transform_entry self' x y Ht).
Qed.

(** X9: in training mode a batch that fits into the free room is stored
    before it is transformed: [forward] evaluates the batch against the
    stored rows followed by the batch itself. *)
Theorem forward_training_uses_own_batch self rng x :
  wf self -> training self = true -> len x <= capacity_left self ->
  exists self',
    forward self rng x = (self', forward_transform self' x) /\
    size self' = size self + len x /\
    slice (values self') 0 (size self') = slice (values self) 0 (size self) ++ x.
Proof.
  intros Hwf Ht Hfit. pose proof Hwf as (Hcap & _ & Hsize & Hlen).
  pose proof (len_nonneg x) as Hn. unfold capacity_left in *.
  unfold forward. rewrite Ht, fill_fits by (auto; unfold capacity_left; lia).
  eexists. split; [reflexivity|]. unfold values in *. simpl.
  split; [reflexivity|].
  rewrite (slice_prefix (cdf_data self)) by lia.
  rewrite slice_prefix.
  2:{ rewrite !len_app. unfold len in *. rewrite length_firstn, length_skipn. lia. }
  set (A := firstn (Z.to_nat (size self)) (cdf_data self)).
  replace (Z.to_nat (size self + len x)) with (length (A ++ x)).
  2:{ rewrite length_app. unfold A. rewrite length_firstn. unfold len in *. lia. }
  rewrite app_assoc, firstn_app, firstn_all, Nat.sub_diag. simpl.
  apply app_nil_r.
Qed.

End ForwardFurther.

(** ** The stored bandwidths *)

Section BandwidthFurther.

Context {scalar : Type}.

(** X10: in every reachable object [self.bw] has exactly [num_features]
    entries, so the size check of the per-feature map passes. *)
Theorem bw_has_num_features_entries (self : BatchPitNorm1d scalar) :
  reachable self -> len (bw self) = num_features self.
Proof.
  induction 1 as [nan rand nf np take nb tb self Hinit | self rng data _ IH
                 | self mode _ IH].
  - unfold __init__ in Hinit.
    destruct (negb (np >? 0)); [discriminate|].
    destruct (negb (take >=? 0)); [discriminate|].
    assert (Hbw : forall b0,
               (if tb then torch_rand_row nf rand
                else row <- torch_full 1 nf nan ;; Ok (concat row)) = Ok b0 ->
               len b0 = nf).
    { intros b0. unfold torch_rand_row, torch_full. simpl.
      destruct (Z.ltb_spec nf 0); [destruct tb; discriminate|].
      destruct tb; simpl; intros [= <-]; unfold len.
      - rewrite length_map, length_seq. lia.
      - rewrite app_nil_r, repeat_length. lia. }
    destruct (if tb then _ else _) as [b0|e]; simpl in Hinit; [|discriminate].
    destruct (torch_full np nf nan) as [v|e]; simpl in Hinit; [|discriminate].
    injection Hinit as <-. simpl. apply Hbw. reflexivity.
  - destruct (fill_frame_fuel rng (S (length data)) data self (Nat.lt_succ_diag_r _))
      as (v & s & ->).
    exact IH.
  - exact IH.
Qed.

End BandwidthFurther.

(** ** The kernel CDF over the reals: further properties *)

Module RealFurther.

Import RealOps.
Local Open Scope R_scope.

Lemma gauss_pos (t : R) : 0 < gauss t.
Proof. unfold gauss. apply exp_pos. Qed.

(** The integral of the Gauss kernel over an ordered interval is not
    negative. *)
Lemma gauss_integral_nonneg (a b : R) :
  a <= b -> 0 <= RiemannInt (gauss_integrable a b).
Proof.
  intros Hab.
  pose proof (RiemannInt_P14 a b 0) as pr0.
  rewrite <- (Rmult_0_l (b - a)), <- (RiemannInt_P15 pr0).
  apply RiemannInt_P19; [exact Hab|].
  intros x _. unfold fct_cte. apply Rlt_le, gauss_pos.
Qed.

Lemma error_function_increasing (a b : R) :
  a <= b -> error_function a <= error_function b.
Proof.
  intros Hab. unfold error_function.
  rewrite <- (RiemannInt_P26 (gauss_integrable 0 a) (gauss_integrable a b)
                             (gauss_integrable 0 b)).
  pose proof (gauss_integral_nonneg a b Hab) as Hpos.
  assert (Hk : 0 < 2 / R_sqrt.sqrt PI).
  { apply Rdiv_lt_0_compat; [lra | apply sqrt_lt_R0, PI_RGT_0]. }
  nra.
Qed.


Lemma spec_Phi_increasing (a b : R) : a <= b -> spec_Phi a <= spec_Phi b.
Proof.
  intros Hab. unfold spec_Phi.
  assert (H : a / R_sqrt.sqrt 2 <= b / R_sqrt.sqrt 2).
  { unfold Rdiv. apply Rmult_le_compat_r; [|exact Hab].
    apply Rlt_le, Rinv_0_lt_compat, sqrt_lt_R0. lra. }
  apply error_function_increasing in H. lra.
Qed.


Lemma spec_sum_le (m : nat) (f g : nat -> R) :
  (forall i, (i < m)%nat -> f i <= g i) -> spec_sum m f <= spec_sum m g.
Proof.
  induction m as [|m IH]; intros H; simpl; [lra|].
  pose proof (H m (Nat.lt_succ_diag_r m)).
  assert (spec_sum m f <= spec_sum m g) by (apply IH; intros i Hi; apply H; lia).
  lra.
Qed.

Lemma spec_cdf_increasing (sample : list R) (h x1 x2 : R) :
  0 < h -> x1 <= x2 -> spec_cdf sample h x1 <= spec_cdf sample h x2.
Proof.
  intros Hh Hx. unfold spec_cdf.
  apply Rmult_le_compat_l.
  - unfold Rdiv. rewrite Rmult_1_l.
    destruct sample as [|a l]; [simpl; rewrite Rinv_0; lra|].
    apply Rlt_le, Rinv_0_lt_compat, lt_0_INR. simpl. lia.
  - apply spec_sum_le. intros i _. apply spec_Phi_increasing.
    unfold Rdiv. apply Rmult_le_compat_r; [|lra].
    apply Rlt_le, Rinv_0_lt_compat. exact Hh.
Qed.

(** The closure of [make_cdf], as a real function of the query point. *)
Lemma make_cdf_real (self : BatchPitNorm1d R) (sample : list R) (raw : R) :
  sample <> [] ->
  exists cdf,
    make_cdf self sample raw = Ok cdf /\
    forall x, cdf x
              = Ok (spec_cdf sample
                      (spec_bandwidth (trainable_bandwidths self) sample raw) x).
Proof.
  intros Hne.
  pose proof (RealClaims.make_cdf_bw_spec self sample raw Hne) as Hbw.
  destruct (make_cdf_closure self sample raw _ Hne Hbw) as (cdf & Hcdf & Hat).
  exists cdf. split; [exact Hcdf|].
  intros x. rewrite Hat. f_equal. unfold spec_cdf.
  cbn [lit of_int add sub mul div erf sqrt tsum real_ops].
  rewrite (RealClaims.sum_map_spec_sum
             (fun s => 0.5 * (1.0 + error_function
                                      ((x - s)
                                       / spec_bandwidth (trainable_bandwidths self) sample raw
                                       / R_sqrt.sqrt 2.0)))).
  rewrite RealClaims.lit_one, RealClaims.lit_two.
  unfold len. rewrite <- INR_IZR_INZ. reflexivity.
Qed.

Lemma logistic_range (raw : R) : 0 < logistic raw < 1.
Proof.
  unfold logistic. pose proof (exp_pos (- raw)) as He.
  split.
  - apply Rdiv_lt_0_compat; lra.
  - apply (Rmult_lt_reg_r (1 + exp (- raw))); [lra|].
    unfold Rdiv. rewrite Rmult_assoc, Rinv_l by lra. lra.
Qed.


(** X12: over a non-empty sample and with a positive bandwidth, the
    CDF built by [make_cdf] is non-decreasing in the query point. *)
Theorem make_cdf_monotone (self : BatchPitNorm1d R) (sample : list R)
    (raw h x1 x2 : R) :
  sample <> [] ->
  make_cdf_bw self sample raw = Ok h -> 0 < h -> x1 <= x2 ->
  exists cdf c1 c2,
    make_cdf self sample raw = Ok cdf /\
    cdf x1 = Ok c1 /\ cdf x2 = Ok c2 /\ c1 <= c2.
Proof.
  intros Hne Hbw Hh Hx.
  destruct (make_cdf_real self sample raw Hne) as (cdf & Hcdf & Hat).
  rewrite (RealClaims.make_cdf_bw_spec self sample raw Hne) in Hbw.
  injection Hbw as Hbw.
  exists cdf. do 2 eexists. split; [exact Hcdf|].
  split; [apply Hat|]. split; [apply Hat|].
  rewrite Hbw. apply spec_cdf_increasing; assumption.
Qed.




End RealFurther.

(** ** The order of the reference sample *)

Module RealOrder.

Import RealOps.
Local Open Scope R_scope.

Lemma sum_perm (l1 l2 : list R) : Permutation l1 l2 -> sum l1 = sum l2.
Proof.
  induction 1 as [| a l l' _ IH | a b l | l l' l'' _ IH1 _ IH2]; simpl.
  - reflexivity.
  - unfold sum in *. simpl. rewrite IH. reflexivity.
  - unfold sum. simpl. ring.
  - congruence.
Qed.

Lemma insert_sorted_comm (x y : R) (l : list R) :
  insert_sorted x (insert_sorted y l) = insert_sorted y (insert_sorted x l).
Proof.
  induction l as [|z l IH]; simpl.
  - destruct (Rle_dec x y), (Rle_dec y x); try reflexivity.
    + assert (x = y) by lra. subst. reflexivity.
    + exfalso. lra.
  - destruct (Rle_dec y z) as [Hyz|Hyz], (Rle_dec x z) as [Hxz|Hxz]; simpl.
    + destruct (Rle_dec x y) as [Hxy|Hxy], (Rle_dec y x) as [Hyx|Hyx];
        simpl; try reflexivity.
      * assert (x = y) by lra. subst. reflexivity.
      * destruct (Rle_dec y z); [reflexivity | contradiction].
      * destruct (Rle_dec x z); [reflexivity | contradiction].
      * exfalso. lra.
    + destruct (Rle_dec x y) as [Hxy|Hxy]; [exfalso; lra|].
      destruct (Rle_dec x z); [contradiction|].
      destruct (Rle_dec y z); [reflexivity | contradiction].
    + destruct (Rle_dec y x) as [Hyx|Hyx]; [exfalso; lra|].
      destruct (Rle_dec y z); [contradiction|].
      destruct (Rle_dec x z); [reflexivity | contradiction].
    + destruct (Rle_dec x z); [contradiction|].
      destruct (Rle_dec y z); [contradiction|].
      rewrite IH. reflexivity.
Qed.

Lemma sort_perm (l1 l2 : list R) : Permutation l1 l2 -> sort l1 = sort l2.
Proof.
  induction 1 as [| a l l' _ IH | a b l | l l' l'' _ IH1 _ IH2].
  - reflexivity.
  - unfold sort in *. simpl. rewrite IH. reflexivity.
  - unfold sort. simpl. apply insert_sorted_comm.
  - congruence.
Qed.

Lemma spec_bandwidth_perm (learned : bool) (l1 l2 : list R) (raw : R) :
  Permutation l1 l2 ->
  spec_bandwidth learned l1 raw = spec_bandwidth learned l2 raw.
Proof.
  intros Hp. unfold spec_bandwidth, sample_std, mean, linear_quantile.
  rewrite (sort_perm l1 l2 Hp), (Permutation_length Hp), (sum_perm l1 l2 Hp).
  rewrite (sum_perm (map _ l1) (map _ l2) (Permutation_map _ Hp)).
  reflexivity.
Qed.

Lemma spec_cdf_perm (l1 l2 : list R) (h x : R) :
  Permutation l1 l2 -> spec_cdf l1 h x = spec_cdf l2 h x.
Proof.
  intros Hp. unfold spec_cdf.
  rewrite <- !(RealClaims.sum_map_spec_sum (fun s => spec_Phi ((x - s) / h))).
  rewrite (Permutation_length Hp).
  rewrite (sum_perm _ _ (Permutation_map _ Hp)). reflexivity.
Qed.

(** X14: the CDF built by [make_cdf] depends on the reference sample
    only up to the order of its values: two non-empty samples that are
    permutations of each other give closures that agree at every query
    point, in both bandwidth modes. *)
Theorem make_cdf_ignores_sample_order (self : BatchPitNorm1d R)
    (s1 s2 : list R) (raw : R) :
  s1 <> [] -> Permutation s1 s2 ->
  exists cdf1 cdf2,
    make_cdf self s1 raw = Ok cdf1 /\ make_cdf self s2 raw = Ok cdf2 /\
    forall x, cdf1 x = cdf2 x.
Proof.
  intros Hne Hp.
  assert (Hne2 : s2 <> []).
  { intros ->. apply Permutation_sym, Permutation_nil in Hp. contradiction. }
  destruct (RealFurther.make_cdf_real self s1 raw Hne) as (cdf1 & H1 & Hat1).
  destruct (RealFurther.make_cdf_real self s2 raw Hne2) as (cdf2 & H2 & Hat2).
  exists cdf1, cdf2. split; [exact H1|]. split; [exact H2|].
  intros x. rewrite Hat1, Hat2.
  rewrite (spec_bandwidth_perm _ s1 s2 raw Hp), (spec_cdf_perm s1 s2 _ x Hp).
  reflexivity.
Qed.


End RealOrder.

(** ** [forward]: what it returns and when *)




Lemma existsb_existsb_false {A : Type} (p : A -> bool) (t : list (list A)) :
  existsb (existsb p) t = false ->
  forall row v, In row t -> In v row -> p v = false.
Proof.
  intros H row v Hrow Hv.
  destruct (p v) eqn:E; [|reflexivity].
  assert (Hrow' : existsb p row = true) by (apply existsb_exists; eauto).
  assert (Ht : existsb (existsb p) t = true) by (apply existsb_exists; eauto).
  congruence.
Qed.

Section ForwardReturns.

Context {scalar : Type} {ops : TorchOps scalar}.
Implicit Types (self : BatchPitNorm1d scalar) (rng : draws) (x y : tensor2 scalar).


(** X16: with the normal back-transform, a tensor that [forward]
    returns has no NaN and no infinite entry: the assertion of
    [standard_normal_ppf] has stopped every other result. *)
Theorem forward_normal_output_is_finite self rng x self' y :
  forward self rng x = (self', Ok y) ->
  normal_backtransform self = true ->
  forall row v, In row y -> In v row -> isnan v = false /\ isinf v = false.
Proof.
  intros H Hn. unfold forward in H.
  assert (Ht : forward_transform self' x = Ok y /\ normal_backtransform self' = true).
  { destruct (training self).
    - destruct (fill_frame_fuel rng (S (length x)) x self (Nat.lt_succ_diag_r _))
        as (v & s & E).
      destruct (fill self rng x) as [self1 [[]|e]]; simpl in *; [|discriminate].
      injection H as Hs Hy. subst self'. split; [exact Hy|].
      rewrite E. exact Hn.
    - destruct (negb (size self >? 0)); [discriminate|].
      injection H as Hs Hy. subst self'. split; assumption. }
  destruct Ht as [Ht Hn']. unfold forward_transform in Ht.
  destruct (negb (len _ =? _)); [discriminate|].
  destruct (vmap_features _ _ _ _) as [result|e]; simpl in Ht; [|discriminate].
  rewrite Hn' in Ht. unfold standard_normal_ppf in Ht.
  destruct (existsb (existsb isnan) _) eqn:Enan; simpl in Ht; [discriminate|].
  destruct (existsb (existsb isinf) _) eqn:Einf; simpl in Ht; [discriminate|].
  injection Ht as <-.
  intros row v Hrow Hv. split.
  - apply (existsb_existsb_false isnan _ Enan row v Hrow Hv).
  - apply (existsb_existsb_false isinf _ Einf row v Hrow Hv).
Qed.


End ForwardReturns.

(** ** Witnesses of the further properties *)

Lemma static_layer_wf : wf static_layer.
Proof. unfold wf, len; simpl; lia. Qed.

Lemma greedy_layer_wf : wf greedy_layer.
Proof. unfold wf, len; simpl; lia. Qed.

Lemma fresh_layer_wf : wf fresh_layer.
Proof. unfold wf, len; simpl; lia. Qed.

(** X2, witness: the empty batch on the layer with one stored row. *)
Lemma fill_empty_batch_witness :
  wf static_layer /\
  fill static_layer identity_draws []
  = (static_layer, if training static_layer then Ok tt
                   else Raise (AssertionError (Some msg_need_training))).
Proof.
  split; [exact static_layer_wf|].
  apply (fill_empty_batch static_layer identity_draws). exact static_layer_wf.
Defined.

(** X3, witness: three rows offered to the layer with one free row. *)
Lemma fill_without_replacement_witness :
  wf static_layer /\ training static_layer = true /\
  take_num_samples_when_full static_layer = 0 /\
  exists self',
    fill static_layer identity_draws [[2.5%float]; [3.5%float]; [4.5%float]]
    = (self', Ok tt) /\
    size self'
    = size static_layer
      + Z.min (len [[2.5%float]; [3.5%float]; [4.5%float]])
              (capacity_left static_layer) /\
    slice (values self') 0 (size self')
    = slice (values static_layer) 0 (size static_layer)
        ++ firstn (Z.to_nat (Z.min (len [[2.5%float]; [3.5%float]; [4.5%float]])
                                   (capacity_left static_layer)))
                  [[2.5%float]; [3.5%float]; [4.5%float]].
Proof.
  split; [exact static_layer_wf|]. split; [reflexivity|]. split; [reflexivity|].
  apply (fill_without_replacement static_layer identity_draws
           [[2.5%float]; [3.5%float]; [4.5%float]]).
  - exact static_layer_wf.
  - reflexivity.
  - reflexivity.
Defined.

(** X4, witness: five rows offered to the layer with one free row and
    three rows to replace in a buffer of two. *)
Lemma fill_failure_keeps_stored_head_witness :
  wf greedy_layer /\ draws_ok identity_draws /\ training greedy_layer = true /\
  0 < capacity_left greedy_layer
    < len [[2.5%float]; [3.5%float]; [4.5%float]; [5.5%float]; [6.5%float]] /\
  num_pit_samples greedy_layer
  < Z.min (len [[2.5%float]; [3.5%float]; [4.5%float]; [5.5%float]; [6.5%float]]
           - capacity_left greedy_layer)
          (take_num_samples_when_full greedy_layer) /\
  fill greedy_layer identity_draws
       [[2.5%float]; [3.5%float]; [4.5%float]; [5.5%float]; [6.5%float]]
  = (set_buffer greedy_layer
       (firstn (Z.to_nat (size greedy_layer)) (values greedy_layer)
          ++ firstn (Z.to_nat (capacity_left greedy_layer))
               [[2.5%float]; [3.5%float]; [4.5%float]; [5.5%float]; [6.5%float]])
       (num_pit_samples greedy_layer),
     Raise (RuntimeError ShapeMismatch)).
Proof.
  split; [exact greedy_layer_wf|]. split; [exact identity_draws_ok|].
  split; [reflexivity|]. split; [vm_compute; split; reflexivity|].
  split; [reflexivity|].
  apply (fill_failure_keeps_stored_head greedy_layer identity_draws
           [[2.5%float]; [3.5%float]; [4.5%float]; [5.5%float]; [6.5%float]]).
  - exact greedy_layer_wf.
  - exact identity_draws_ok.
  - reflexivity.
  - vm_compute. split; reflexivity.
  - reflexivity.
Defined.

(** X5, witness: two rows offered to the fresh two-row layer. *)
Lemma fill_saturates_witness :
  wf fresh_layer /\ training fresh_layer = true /\
  capacity_left fresh_layer <= len [[1.5%float]; [2.5%float]] /\
  is_full (fst (fill fresh_layer identity_draws [[1.5%float]; [2.5%float]])) = true.
Proof.
  split; [exact fresh_layer_wf|]. split; [reflexivity|].
  split; [vm_compute; discriminate|].
  apply (fill_saturates fresh_layer identity_draws [[1.5%float]; [2.5%float]]).
  - exact fresh_layer_wf.
  - reflexivity.
  - vm_compute. discriminate.
Defined.

(** X6, witness: three rows offered to the fresh two-row layer, which
    replaces one row per call. *)
Lemma fill_returns_when_take_fits_witness :
  wf fresh_layer /\ draws_ok reversing_draws /\ training fresh_layer = true /\
  take_num_samples_when_full fresh_layer <= num_pit_samples fresh_layer /\
  snd (fill fresh_layer reversing_draws [[1.5%float]; [2.5%float]; [3.5%float]])
  = Ok tt.
Proof.
  split; [exact fresh_layer_wf|]. split; [exact reversing_draws_ok|].
  split; [reflexivity|]. split; [vm_compute; discriminate|].
  apply (fill_returns_when_take_fits fresh_layer reversing_draws
           [[1.5%float]; [2.5%float]; [3.5%float]]).
  - exact fresh_layer_wf.
  - exact reversing_draws_ok.
  - reflexivity.
  - vm_compute. discriminate.
Defined.

(** X7, witness: one row through the evaluation-mode layer. *)
Lemma forward_output_shape_witness :
  exists y,
    forward eval_layer identity_draws [[2%R]] = (eval_layer, Ok y) /\
    length y = length [[2%R]] /\
    forall row, In row y -> len row = num_features eval_layer.
Proof.
  eexists. split; [reflexivity|].
  apply (forward_output_shape eval_layer identity_draws [[2%R]] eval_layer).
  reflexivity.
Defined.

(** X8, witness: one row through the evaluation-mode layer. *)
Lemma forward_entrywise_witness :
  exists y,
    forward eval_layer identity_draws [[2%R]] = (eval_layer, Ok y) /\
    forall i j v b,
      entry [[2%R]] i j = Some v -> nth_error (bw eval_layer) j = Some b ->
      exists refcol cdf c,
        column (slice (values eval_layer) 0 (size eval_layer)) j = Ok refcol /\
        make_cdf eval_layer refcol b = Ok cdf /\ cdf v = Ok c /\
        entry y i j = Some (map_cdf_value eval_layer c).
Proof.
  eexists. split; [reflexivity|].
  apply (forward_entrywise eval_layer identity_draws [[2%R]] eval_layer).
  reflexivity.
Defined.

(** X9, witness: one row through the training-mode layer with one free
    row. *)
Lemma forward_training_uses_own_batch_witness :
  wf training_layer /\ training training_layer = true /\
  len [[2%R]] <= capacity_left training_layer /\
  exists self',
    forward training_layer identity_draws [[2%R]]
    = (self', forward_transform self' [[2%R]]) /\
    size self' = size training_layer + len [[2%R]] /\
    slice (values self') 0 (size self')
    = slice (values training_layer) 0 (size training_layer) ++ [[2%R]].
Proof.
  assert (Hwf : wf training_layer) by (unfold wf, len; simpl; lia).
  split; [exact Hwf|]. split; [reflexivity|]. split; [vm_compute; discriminate|].
  apply (forward_training_uses_own_batch training_layer identity_draws [[2%R]]).
  - exact Hwf.
  - reflexivity.
  - vm_compute. discriminate.
Defined.

(** X10, witness: the fresh layer. *)
Lemma bw_has_num_features_entries_witness :
  reachable fresh_layer /\ len (bw fresh_layer) = num_features fresh_layer.
Proof.
  split; [exact fresh_layer_reachable|].
  apply (bw_has_num_features_entries fresh_layer). exact fresh_layer_reachable.
Defined.


(** X12, witness: the sample 1, 2 with the bandwidth sigmoid(0), at the
    query points 1 and 3. *)
Lemma make_cdf_monotone_witness :
  [1%R; 2%R] <> [] /\
  make_cdf_bw trainable_layer [1%R; 2%R] 0%R = Ok (RealOps.logistic 0) /\
  (0 < RealOps.logistic 0)%R /\ (1 <= 3)%R /\
  exists cdf c1 c2,
    make_cdf trainable_layer [1%R; 2%R] 0%R = Ok cdf /\
    cdf 1%R = Ok c1 /\ cdf 3%R = Ok c2 /\ (c1 <= c2)%R.
Proof.
  split; [discriminate|]. split; [reflexivity|].
  split; [apply RealFurther.logistic_range|]. split; [lra|].
  apply (RealFurther.make_cdf_monotone trainable_layer [1%R; 2%R] 0%R
           (RealOps.logistic 0) 1%R 3%R).
  - discriminate.
  - reflexivity.
  - apply RealFurther.logistic_range.
  - lra.
Defined.


(** X14, witness: the samples 1, 2 and 2, 1 in heuristic mode. *)
Lemma make_cdf_ignores_sample_order_witness :
  [1%R; 2%R] <> [] /\ Permutation [1%R; 2%R] [2%R; 1%R] /\
  exists cdf1 cdf2,
    make_cdf eval_layer [1%R; 2%R] 0%R = Ok cdf1 /\
    make_cdf eval_layer [2%R; 1%R] 0%R = Ok cdf2 /\
    forall x, cdf1 x = cdf2 x.
Proof.
  split; [discriminate|]. split; [apply perm_swap|].
  apply (RealOrder.make_cdf_ignores_sample_order eval_layer [1%R; 2%R] [2%R; 1%R] 0%R).
  - discriminate.
  - apply perm_swap.
Defined.


(** X16, witness: one row through the layer with the normal
    back-transform. *)
Lemma forward_normal_output_is_finite_witness :
  exists y,
    forward probit_layer identity_draws [[3%R]] = (probit_layer, Ok y) /\
    normal_backtransform probit_layer = true /\
    forall row v, In row y -> In v row -> isnan v = false /\ isinf v = false.
Proof.
  eexists. split; [reflexivity|]. split; [reflexivity|].
  apply (forward_normal_output_is_finite probit_layer identity_draws [[3%R]]
           probit_layer);
    reflexivity.
Defined.

